(** * Price-inflation pipeline: extraction, cleaning, analysis

    A shallow embedding of the three batch stages
    [scripts/final_data_extraction_s3.py], [scripts/Final_cleaning.py] and
    [scripts/Analysis.py], and the properties of their decision logic.

    Conventions of the embedding.
    - Python exceptions are values of [exn]; a computation that may raise
      returns [result A].
    - JSON values are the inductive [json]; a JSON object (a Python [dict]
      with string keys) is a [gmap string json].
    - A Python number ([int], [float]) is modelled by the exact rational it
      denotes ([Q]); comparisons are then exactly Python's.  Arithmetic is
      carried out on these exact values: the rounding of intermediate
      results to binary64, and the non-finite floats, are outside the
      model.
    - Strings are byte strings; the character classes used by [str.strip],
      [str.isdigit], [str.lower], [float] and the regular expressions are
      those of the ASCII range. *)

From Stdlib Require Import QArith Qabs Qround Lqa ZArith Lia String Ascii List OrdersEx.
From stdpp Require Import base option list gmap strings sorting.

Local Open Scope string_scope.

(* ------------------------------------------------------------------ *)
(** * Exceptions and results *)

Inductive exn :=
| KeyError | IndexError | AttributeError | TypeError | ValueError | ClientError.

Inductive result (A : Type) :=
| Ok (a : A)
| Raise (e : exn).
Arguments Ok {A} a.
Arguments Raise {A} e.

Definition rbind {A B} (r : result A) (k : A -> result B) : result B :=
  match r with
  | Ok a => k a
  | Raise e => Raise e
  end.

Notation "x <- r ;;; k" := (rbind r (fun x => k))
  (at level 100, r at next level, right associativity).

(* ------------------------------------------------------------------ *)
(** * JSON values *)

#[warnings="-register-all"]
Inductive json :=
| JNull
| JBool (b : bool)
| JNum (q : Q)
| JStr (s : string)
| JArr (l : list json)
| JObj (m : gmap string json).

(** Python truthiness ([if v:], [any(...)]). *)
Definition truthy (v : json) : bool :=
  match v with
  | JNull => false
  | JBool b => b
  | JNum q => negb (Qeq_bool q 0)
  | JStr s => negb (s =? "")%string
  | JArr l => negb (bool_decide (l = []))
  | JObj m => negb (bool_decide (m = ∅))
  end.

(** [isinstance(v, (int, float))]: [bool] is a subclass of [int], with
    [True == 1] and [False == 0]. *)
Definition as_number (v : json) : option Q :=
  match v with
  | JNum q => Some q
  | JBool true => Some 1%Q
  | JBool false => Some 0%Q
  | _ => None
  end.

Definition Qltb (a b : Q) : bool := negb (Qle_bool b a).

(* ------------------------------------------------------------------ *)
(** * String built-ins *)

Definition is_space (c : ascii) : bool :=
  let n := nat_of_ascii c in
  ((9 <=? n) && (n <=? 13) || (28 <=? n) && (n <=? 32))%nat.

Definition is_digit (c : ascii) : bool :=
  let n := nat_of_ascii c in ((48 <=? n) && (n <=? 57))%nat.

Definition digit_val (c : ascii) : Z := Z.of_nat (nat_of_ascii c) - 48.

Fixpoint lstrip (s : string) : string :=
  match s with
  | String c r => if is_space c then lstrip r else s
  | EmptyString => EmptyString
  end.

Fixpoint rstrip (s : string) : string :=
  match s with
  | String c r =>
      match rstrip r with
      | EmptyString => if is_space c then EmptyString else String c EmptyString
      | r' => String c r'
      end
  | EmptyString => EmptyString
  end.

(** [s.strip()] *)
Definition strip (s : string) : string := rstrip (lstrip s).

(** [s.replace(c, '')] for a one-character [c]. *)
Fixpoint remove_char (c : ascii) (s : string) : string :=
  match s with
  | String d r => if Ascii.eqb c d then remove_char c r else String d (remove_char c r)
  | EmptyString => EmptyString
  end.

Fixpoint all_digits (s : string) : bool :=
  match s with
  | String c r => is_digit c && all_digits r
  | EmptyString => true
  end.

(** [s.isdigit()]: every character a digit, and at least one character. *)
Definition isdigit (s : string) : bool :=
  match s with
  | EmptyString => false
  | _ => all_digits s
  end.

(** [c in s] for a one-character [c]. *)
Fixpoint contains_char (c : ascii) (s : string) : bool :=
  match s with
  | String d r => Ascii.eqb c d || contains_char c r
  | EmptyString => false
  end.

Definition lower_char (c : ascii) : ascii :=
  let n := nat_of_ascii c in
  if ((65 <=? n) && (n <=? 90))%nat then ascii_of_nat (n + 32) else c.

(** [s.lower()] *)
Fixpoint lower (s : string) : string :=
  match s with
  | String c r => String (lower_char c) (lower r)
  | EmptyString => EmptyString
  end.

(** [s[:n]] *)
Definition take_prefix (n : nat) (s : string) : string := substring 0 n s.

(* ------------------------------------------------------------------ *)
(** * [float(s)] on decimal literals

    The grammar is Python's: optional sign, digits with optional
    underscores between them, an optional fraction, an optional exponent.
    [None] stands for [ValueError].  The spellings of infinity and
    not-a-number contain neither a dot nor only digits, so the guard of
    [clean_data] never hands them to [float]. *)

(** The rest of a digit part: [acc] is the value read so far, [n] the
    number of digits read so far. *)
Fixpoint digits_rest (s : string) (acc : Z) (n : nat) : Z * nat * string :=
  match s with
  | String c r =>
      if is_digit c then digits_rest r (acc * 10 + digit_val c)%Z (S n)
      else if Ascii.eqb c "_" then
        match r with
        | String d r' =>
            if is_digit d then digits_rest r' (acc * 10 + digit_val d)%Z (S n)
            else (acc, n, s)
        | EmptyString => (acc, n, s)
        end
      else (acc, n, s)
  | EmptyString => (acc, n, s)
  end.

(** A digit part continuing the value [acc]: at least one digit. *)
Definition digitpart (s : string) (acc : Z) : option (Z * nat * string) :=
  match s with
  | String c r =>
      if is_digit c then Some (digits_rest r (acc * 10 + digit_val c)%Z 1)
      else None
  | EmptyString => None
  end.

Definition sign_of (s : string) : bool * string :=
  match s with
  | String "-" r => (true, r)
  | String "+" r => (false, r)
  | _ => (false, s)
  end.

(** The exponent, when present; [None] for a malformed one. *)
Definition exponent (s : string) : option (Z * string) :=
  match s with
  | String c r =>
      if Ascii.eqb c "e" || Ascii.eqb c "E" then
        let '(neg, r1) := sign_of r in
        match digitpart r1 0 with
        | Some (e, _, r2) => Some (if neg then (- e)%Z else e, r2)
        | None => None
        end
      else Some (0%Z, s)
  | EmptyString => Some (0%Z, s)
  end.

(** Mantissa [m] with [k] digits after the point. *)
Definition mantissa (s : string) : option (Z * nat * string) :=
  match digitpart s 0 with
  | Some (m, _, String "." r) =>
      match digitpart r m with
      | Some (m', k, r') => Some (m', k, r')
      | None => Some (m, 0%nat, r)
      end
  | Some (m, _, r) => Some (m, 0%nat, r)
  | None =>
      match s with
      | String "." r => digitpart r 0
      | _ => None
      end
  end.

Definition scale10 (m k : Z) : Q :=
  if (0 <=? k)%Z then inject_Z (m * 10 ^ k) else Qred (Qmake m (Z.to_pos (10 ^ (- k)))).

Definition py_float (s : string) : option Q :=
  let '(neg, r) := sign_of (strip s) in
  match mantissa r with
  | Some (m, k, r1) =>
      match exponent r1 with
      | Some (e, EmptyString) =>
          Some (scale10 (if neg then - m else m) (e - Z.of_nat k))
      | _ => None
      end
  | None => None
  end.

(* ------------------------------------------------------------------ *)
(** * Stage 1: extraction ([final_data_extraction_s3.py]) *)

Module Extraction.

(** ** The two regular expressions of [extract_product_data] *)

Fixpoint until_newline (s : string) : string :=
  match s with
  | String c r => if Ascii.eqb c "010" then EmptyString else String c (until_newline r)
  | EmptyString => EmptyString
  end.

Fixpoint drop (n : nat) (s : string) : string :=
  match n, s with
  | S n', String _ r => drop n' r
  | _, _ => s
  end.

(** [re.search] of the title pattern in [text], group 1: after the
    leftmost occurrence of the literal [Title:], all white space is
    skipped and the group is the rest of that line. *)
Fixpoint search_title (text : string) : option string :=
  match text with
  | String _ r =>
      if String.prefix "Title:" text then Some (until_newline (lstrip (drop 6 text)))
      else search_title r
  | EmptyString => None
  end.

Fixpoint take_digits (s : string) : string * string :=
  match s with
  | String c r =>
      if is_digit c then let '(ds, r') := take_digits r in (String c ds, r')
      else (EmptyString, s)
  | EmptyString => (EmptyString, s)
  end.

(** The match of "\d+(?:\.\d{2})?" at a position that holds a digit. *)
Definition price_match_at (s : string) : string :=
  let '(ds, r) := take_digits s in
  match r with
  | String "." (String a (String b _)) =>
      if is_digit a && is_digit b then ds ++ String "." (String a (String b EmptyString))
      else ds
  | _ => ds
  end.

(** [search] of the pattern "\d+(?:\.\d{2})?" in [text], the whole match. *)
Fixpoint search_price (text : string) : option string :=
  match text with
  | String c r => if is_digit c then Some (price_match_at text) else search_price r
  | EmptyString => None
  end.

(** ** The parsed page

    What [extract_product_data] asks of the document tree: for each query,
    [None] when no element matches and otherwise the [get_text()] of the
    first match; and the [get_text()] of the whole document. *)
Record soup := {
  sel_productTitle : option string;  (* select_one("#productTitle") *)
  sel_btAsinTitle : option string;   (* select_one("#btAsinTitle") *)
  find_h1_title : option string;     (* find("h1", {"class": "title"}) *)
  find_title : option string;        (* find("title") *)
  find_h1 : option string;           (* find("h1") *)
  sel_priceblock : option string;    (* select_one("#priceblock_saleprice, #priceblock_ourprice, #priceblock_dealprice") *)
  find_price_whole : option string;  (* find("span", {"class": "a-price-whole"}) *)
  find_a_price : option string;      (* find("span", {"class": "a-price"}) *)
  find_buybox : option string;       (* find("span", {"id": "price_inside_buybox"}) *)
  get_text : string                  (* soup.get_text() *)
}.

(** The [if]/[elif] chain for the title: the first query with an element
    decides; the regular expression is tried only when none has one. *)
Definition title_of (d : soup) : string :=
  match sel_productTitle d with
  | Some t => strip t
  | None =>
  match sel_btAsinTitle d with
  | Some t => strip t
  | None =>
  match find_h1_title d with
  | Some t => strip t
  | None =>
  match find_title d with
  | Some t => strip t
  | None =>
  match find_h1 d with
  | Some t => strip t
  | None =>
  match search_title (get_text d) with
  | Some g => strip g
  | None => ""
  end end end end end end.

Definition price_of (d : soup) : string :=
  match sel_priceblock d with
  | Some t => strip t
  | None =>
  match find_price_whole d with
  | Some t => strip t
  | None =>
  match find_a_price d with
  | Some t => strip t
  | None =>
  match find_buybox d with
  | Some t => strip t
  | None =>
  match search_price (get_text d) with
  | Some m => m
  | None => ""
  end end end end end.

Definition or_default (s dflt : string) : string :=
  if (s =? "")%string then dflt else s.

(** [extract_product_data] after the page is parsed: the dictionary
    [{'title': ..., 'price': ...}]. *)
Definition extract_product_data (d : soup) : gmap string json :=
  <["price" := JStr (or_default (price_of d) "No Price Found")]>
  (<["title" := JStr (or_default (title_of d) "No Title Found")]> ∅).

(** ** One row of a batch ([process_parquet_files], the body of the loop) *)

(** What the loop does with a row. *)
Inductive row_outcome :=
| Appended (product_data : gmap string json) (* "Successfully extracted data" *)
| NoProductData                              (* "No product data found" *)
| NoHtml                                     (* "Failed to extract HTML content" *)
| RowError (e : exn).                        (* "Error processing record" *)

(** [any(d.values())] *)
Definition any_values (d : gmap string json) : bool :=
  bool_decide (map_Exists (fun _ v => truthy v = true) d).

(** [int(v)]: a number is truncated toward zero, a string must be an
    integer literal. *)
Definition py_int (v : json) : result Z :=
  match v with
  | JNum q => Ok (Z.quot (Qnum q) (Zpos (Qden q)))
  | JBool b => Ok (if b then 1 else 0)%Z
  | JStr s =>
      let '(neg, r) := sign_of (strip s) in
      match digitpart r 0 with
      | Some (n, _, EmptyString) => Ok (if neg then - n else n)%Z
      | _ => Raise ValueError
      end
  | _ => Raise TypeError
  end.

(** A record of an archive: its type and its payload decoded as UTF-8. *)
Record warc_record := {
  rec_type : string;
  content : string
}.

(** The first record of type response, as the loop of lines 39-42 finds it. *)
Fixpoint first_response (records : list warc_record) : option string :=
  match records with
  | r :: records' =>
      if (rec_type r =? "response")%string then Some (content r)
      else first_response records'
  | [] => None
  end.

Section Row.
(** The collaborators: the storage read of a byte range of an archive with
    the iteration over the records it holds ([get_object] of a bucket, a
    key, the first and the last byte), the HTML parser, and
    [pd.to_datetime(_, format="%Y-%m-%d %H:%M:%S").isoformat()]. *)
Variable get_object : string -> json -> Z -> Z -> result (list warc_record).
Variable BeautifulSoup : string -> soup.
Variable to_datetime : json -> result string.

(** Lines 23-48.  [ClientError] is caught and gives [None]; any other
    exception leaves the function. *)
Definition extract_data_from_warc (record : gmap string json)
  : result (option string) :=
  match record !! "warc_filename" with
  | None => Raise KeyError
  | Some warc_filename =>
      match record !! "warc_record_offset" with
      | None => Raise KeyError
      | Some o =>
          offset <- py_int o ;;;
          match record !! "warc_record_length" with
          | None => Raise KeyError
          | Some l =>
              length <- py_int l ;;;
              match get_object "commoncrawl" warc_filename
                               offset (offset + length - 1) with
              | Ok records => Ok (first_response records)
              | Raise ClientError => Ok None
              | Raise e => Raise e
              end
          end
      end
  end.

Definition attach_fetch_time (record_dict product_data : gmap string json)
  : result (gmap string json) :=
  match record_dict !! "fetch_time" with
  | Some ft =>
      if truthy ft then
        match to_datetime ft with
        | Ok iso => Ok (<["fetch_time" := JStr iso]> product_data)
        | Raise ValueError => Ok (<["fetch_time" := JNull]> product_data)
        | Raise e => Raise e
        end
      else Ok product_data
  | None => Ok product_data
  end.

Definition process_record (record_dict : gmap string json) : row_outcome :=
  match extract_data_from_warc record_dict with
  | Raise e => RowError e
  | Ok None => NoHtml
  | Ok (Some html_content) =>
      if (html_content =? "")%string then NoHtml
      else
        let product_data := extract_product_data (BeautifulSoup html_content) in
        match record_dict !! "url" with
        | None => RowError KeyError
        | Some url =>
            match attach_fetch_time record_dict (<["url" := url]> product_data) with
            | Raise e => RowError e
            | Ok product_data =>
                if any_values product_data then Appended product_data
                else NoProductData
            end
        end
  end.

(** The rows of one batch, in order: the list written out, one JSON
    object per line. *)
Fixpoint process_rows (rows : list (gmap string json)) : list (gmap string json) :=
  match rows with
  | r :: rows' =>
      match process_record r with
      | Appended d => d :: process_rows rows'
      | _ => process_rows rows'
      end
  | [] => []
  end.
End Row.

End Extraction.

(* ------------------------------------------------------------------ *)
(** * Stage 2: cleaning ([Final_cleaning.py]) *)

Module Cleaning.

Definition error_titles : list string :=
  ["301 Moved Permanently"; "Robot Check"; "Sorry! Something went wrong!";
   "No Title Found"].

Definition promo_titles : list string :=
  ["amazon prime"; "amazon prime day"; "prime"; "amazon best sellers";
   "best sellers"; "cyber monday"; "black friday"; "error page"].

Definition year_like : list Q := [2020; 2021; 2022; 2023; 2024; 1996]%Q.

(** [s in l] for a list of strings and [q in l] for a list of numbers
    ([in] compares with [==]). *)
Definition str_in (s : string) (l : list string) : bool := existsb (String.eqb s) l.
Definition num_in (q : Q) (l : list Q) : bool := existsb (Qeq_bool q) l.

(** [v in l] for a JSON value and a list of strings: only a string can be
    equal to one. *)
Definition json_in (v : json) (l : list string) : bool :=
  match v with
  | JStr s => str_in s l
  | _ => false
  end.

(** Lines 28-35: the price, when it is a string. *)
Definition normalize_price (item : gmap string json) : gmap string json :=
  match item !! "price" with
  | Some (JStr raw) =>
      let price := strip (remove_char "," (remove_char "$" raw)) in
      let item := <["price" := JStr price]> item in
      if isdigit price || contains_char "." price then
        match py_float price with
        | Some x => <["price" := JNum x]> item
        | None => <["price" := JNull]> item
        end
      else item
  | _ => item
  end.

(** Lines 46-51, the part on the price. *)
Definition price_ok (item : gmap string json) : bool :=
  match item !! "price" with
  | None => true
  | Some v =>
      match as_number v with
      | Some x => Qle_bool 99 x && negb (num_in x year_like)
      | None => false
      end
  end.

(** Lines 46-51: the condition of the [if], evaluated left to right.
    [item['title']] raises [KeyError] without the key, and [.lower()]
    raises [AttributeError] on a title that is not a string. *)
Definition keep (item : gmap string json) : result bool :=
  match item !! "title" with
  | None => Raise KeyError
  | Some title =>
      if json_in title error_titles then Ok false
      else
        match title with
        | JStr t =>
            if str_in (lower t) promo_titles then Ok false
            else Ok (price_ok item)
        | _ => Raise AttributeError
        end
  end.

(** A line of an input file, as [json.loads] sees it. *)
Inductive line :=
| Malformed          (* json.JSONDecodeError *)
| Parsed (v : json).

Section Clean.
(** [dateutil]'s [parser.parse(v).isoformat()]; [None] when it raises
    [ValueError] or [TypeError], the two exceptions caught. *)
Variable parser_parse : json -> option string.

(** Lines 38-43. *)
Definition normalize_fetch_time (item : gmap string json) : gmap string json :=
  match item !! "fetch_time" with
  | Some v =>
      if truthy v then
        match parser_parse v with
        | Some iso => <["fetch_time" := JStr iso]> item
        | None => <["fetch_time" := JNull]> item
        end
      else item
  | None => item
  end.

Definition normalize (item : gmap string json) : gmap string json :=
  normalize_fetch_time (normalize_price item).

(** The body of the [try]: [Ok d] is the list [filtered_data] after the
    line; [Raise e] is an exception that leaves the [try], since only
    [json.JSONDecodeError] is caught. *)
Definition clean_line (l : line) (filtered_data : list (gmap string json))
  : result (list (gmap string json)) :=
  match l with
  | Malformed => Ok filtered_data
  | Parsed (JObj item) =>
      let item := normalize item in
      b <- keep item ;;;
      Ok (if b : bool then (filtered_data ++ [item])%list else filtered_data)
  | Parsed _ => Raise TypeError
  end.

Fixpoint clean_file (lines : list line) (filtered_data : list (gmap string json))
  : result (list (gmap string json)) :=
  match lines with
  | l :: lines' =>
      d <- clean_line l filtered_data ;;;
      clean_file lines' d
  | [] => Ok filtered_data
  end.

Fixpoint clean_files (input_paths : list (list line))
    (filtered_data : list (gmap string json))
  : result (list (gmap string json)) :=
  match input_paths with
  | f :: paths' =>
      d <- clean_file f filtered_data ;;;
      clean_files paths' d
  | [] => Ok filtered_data
  end.

(** [clean_data]: [Ok d] when the function reaches [json.dump] and writes
    [d] to the output file; [Raise e] when an exception leaves the
    function before the output file is opened. *)
Definition clean_data (input_paths : list (list line))
  : result (list (gmap string json)) :=
  clean_files input_paths [].
End Clean.

End Cleaning.

(* ------------------------------------------------------------------ *)
(** * Stage 3: analysis ([Analysis.py]) *)

Module Analysis.

Definition LOW_PRICE_THRESHOLD : Q := 300.
Definition MID_PRICE_THRESHOLD : Q := 700.

(** ** Numbers: [round], [statistics.mean], [max], [min], [statistics.stdev] *)

(** The integer nearest to [x], a tie going to the even one. *)
Definition round_half_even (x : Q) : Z :=
  let f := Qfloor x in
  match (2 * (x - inject_Z f) ?= 1)%Q with
  | Lt => f
  | Gt => (f + 1)%Z
  | Eq => if Z.even f then f else (f + 1)%Z
  end.

(** [round(x, 2)] *)
Definition round2 (x : Q) : Q := Qred (Qmake (round_half_even (x * 100)) 100).

Definition Qsum (l : list Q) : Q := foldr Qplus 0%Q l.

(** [statistics.mean(l)], for a non-empty [l]. *)
Definition mean (l : list Q) : Q :=
  Qred (Qsum l / inject_Z (Z.of_nat (length l))).

(** [max(l)] and [min(l)], for a non-empty [l]; [0] stands in at the empty
    list, where [calculate_statistics] never calls them. *)
Definition list_max (l : list Q) : Q :=
  match l with
  | x :: l' => foldl (fun m y => if Qltb m y then y else m) x l'
  | [] => 0%Q
  end.

Definition list_min (l : list Q) : Q :=
  match l with
  | x :: l' => foldl (fun m y => if Qltb y m then y else m) x l'
  | [] => 0%Q
  end.

(** The sample variance: squared deviations from the mean over [n - 1]. *)
Definition variance (l : list Q) : Q :=
  let m := mean l in
  Qred (Qsum (map (fun x => (x - m) * (x - m))%Q l)
        / inject_Z (Z.of_nat (length l - 1))).

(** [round(sqrt(v), 2)].  A square root is not rational in general; its
    rounding to two decimals is, and is found here with the integer square
    root: with [w = 10000 v] and [f = floor (sqrt w)], the root lies below
    [f + 1/2] exactly when [4 w < (2 f + 1)^2]. *)
Definition sqrt_round2 (v : Q) : Q :=
  let w := (v * 10000)%Q in
  let a := Qnum w in
  let b := Zpos (Qden w) in
  if (a <=? 0)%Z then 0%Q
  else
    let f := Z.sqrt (a / b) in
    let n := match (4 * a ?= (2 * f + 1) * (2 * f + 1) * b)%Z with
             | Lt => f
             | Gt => (f + 1)%Z
             | Eq => if Z.even f then f else (f + 1)%Z
             end in
    Qred (Qmake n 100).

(** [round(statistics.stdev(l), 2)], for [l] of two elements or more. *)
Definition stdev_round2 (l : list Q) : Q := sqrt_round2 (variance l).

(** ** [calculate_statistics] *)

Record stats := {
  average : option Q;
  max : option Q;
  min : option Q;
  stdev : option Q
}.

Definition calculate_statistics (prices : list Q) : stats :=
  match prices with
  | [] => {| average := None; max := None; min := None; stdev := None |}
  | _ =>
      {| average := Some (round2 (mean prices));
         max := Some (round2 (list_max prices));
         min := Some (round2 (list_min prices));
         stdev := Some (if (1 <? length prices)%nat then stdev_round2 prices
                        else 0%Q) |}
  end.

(** ** Segmentation (lines 59-80) *)

(** The [if]/[elif] chain of lines 75-80: the key of the tier the price is
    appended to, if any. *)
Definition tier_of (price : Q) : option string :=
  if Qle_bool 100 price && Qle_bool price LOW_PRICE_THRESHOLD then Some "low"
  else if Qltb LOW_PRICE_THRESHOLD price && Qle_bool price MID_PRICE_THRESHOLD
       then Some "mid"
  else if Qltb MID_PRICE_THRESHOLD price then Some "high"
  else None.

(** The value a missing year gets from the [defaultdict]. *)
Definition new_segments : gmap string (list Q) :=
  <["high" := []]> (<["mid" := []]> (<["low" := []]> ∅)).

(** [yearly_price_segments[year][tier].append(price)] *)
Definition append_price (year tier : string) (price : Q)
    (yearly_price_segments : gmap string (gmap string (list Q)))
  : gmap string (gmap string (list Q)) :=
  let segments := default new_segments (yearly_price_segments !! year) in
  <[year := <[tier := (default [] (segments !! tier) ++ [price])%list]> segments]>
    yearly_price_segments.

(** [fetch_time[:4]]: a string or a list can be sliced. *)
Definition slice4 (fetch_time : json) : result json :=
  match fetch_time with
  | JStr s => Ok (JStr (take_prefix 4 s))
  | JArr l => Ok (JArr (take 4 l))
  | _ => Raise TypeError
  end.

(** The body of the loop of lines 62-80.  A record that is not an object
    has no [get]; a price that is not a number cannot be compared with
    [100]; a year that is not a string cannot be a key. *)
Definition segment_record (record : json)
    (yearly_price_segments : gmap string (gmap string (list Q)))
  : result (gmap string (gmap string (list Q))) :=
  match record with
  | JObj r =>
      let fetch_time := default JNull (r !! "fetch_time") in
      if negb (truthy fetch_time) then Ok yearly_price_segments
      else
        year <- slice4 fetch_time ;;;
        match default JNull (r !! "price") with
        | JNull => Ok yearly_price_segments
        | price =>
            match as_number price with
            | None => Raise TypeError
            | Some p =>
                match tier_of p with
                | None => Ok yearly_price_segments
                | Some tier =>
                    match year with
                    | JStr y => Ok (append_price y tier p yearly_price_segments)
                    | _ => Raise TypeError
                    end
                end
            end
        end
  | _ => Raise AttributeError
  end.

Fixpoint foldM {A B} (f : B -> A -> result A) (l : list B) (a : A) : result A :=
  match l with
  | x :: l' => a' <- f x a ;;; foldM f l' a'
  | [] => Ok a
  end.

Definition segment_records (records : list json)
  : result (gmap string (gmap string (list Q))) :=
  foldM segment_record records ∅.

(** ** Inflation rates (lines 87-106) *)

Definition str_le (a b : string) : Prop := String.leb a b = true.

#[global] Instance str_le_dec a b : Decision (str_le a b).
Proof. unfold str_le. apply _. Defined.

(** [sorted(d.keys())] *)
Definition sorted_keys {A} (d : gmap string A) : list string :=
  merge_sort str_le (map_to_list d).*1.

Inductive direction := increased | decreased.

(** "The inflation [dir] from year [from_year] to [to_year] by [percent]%
    in the [in_segment] segment." *)
Record sentence := {
  dir : direction;
  from_year : string;
  to_year : string;
  percent : Q;
  in_segment : string
}.

Record inflation := {
  inflation_summary : gmap string (gmap string (option Q));
  inflation_analysis : list sentence
}.

(** [yearly_segment_summary[year][segment]['average']] *)
Definition average_at (yearly_segment_summary : gmap string (gmap string stats))
    (year segment : string) : result (option Q) :=
  match yearly_segment_summary !! year with
  | Some segments =>
      match segments !! segment with
      | Some st => Ok (average st)
      | None => Raise KeyError
      end
  | None => Raise KeyError
  end.

(** [inflation_summary[current_year][segment] = v] *)
Definition set_rate (current_year segment : string) (v : option Q)
    (s : gmap string (gmap string (option Q)))
  : gmap string (gmap string (option Q)) :=
  <[current_year := <[segment := v]> (default ∅ (s !! current_year))]> s.

(** Lines 96-106: the body of the loop over the segments. *)
Definition segment_step (yearly_segment_summary : gmap string (gmap string stats))
    (previous_year current_year segment : string) (st : inflation)
  : result inflation :=
  prev_avg <- average_at yearly_segment_summary previous_year segment ;;;
  curr_avg <- average_at yearly_segment_summary current_year segment ;;;
  match prev_avg, curr_avg with
  | Some p, Some c =>
      if negb (Qeq_bool p 0) then
        let inflation_rate := ((c - p) / p * 100)%Q in
        let summary :=
          set_rate current_year segment (Some (round2 inflation_rate))
                   (inflation_summary st) in
        if Qltb 0 inflation_rate then
          Ok {| inflation_summary := summary;
                inflation_analysis :=
                  (inflation_analysis st ++
                   [ {| dir := increased; from_year := previous_year;
                        to_year := current_year;
                        percent := round2 inflation_rate;
                        in_segment := segment |} ])%list |}
        else if Qltb inflation_rate 0 then
          Ok {| inflation_summary := summary;
                inflation_analysis :=
                  (inflation_analysis st ++
                   [ {| dir := decreased; from_year := previous_year;
                        to_year := current_year;
                        percent := round2 (Qabs inflation_rate);
                        in_segment := segment |} ])%list |}
        else
          Ok {| inflation_summary := summary;
                inflation_analysis := inflation_analysis st |}
      else
        Ok {| inflation_summary :=
                set_rate current_year segment None (inflation_summary st);
              inflation_analysis := inflation_analysis st |}
  | _, _ =>
      Ok {| inflation_summary :=
              set_rate current_year segment None (inflation_summary st);
            inflation_analysis := inflation_analysis st |}
  end.

Definition segment_names : list string := ["low"; "mid"; "high"].

(** Lines 92-106: the body of the loop over [i]. *)
Definition year_step (yearly_segment_summary : gmap string (gmap string stats))
    (sorted_years : list string) (i : nat) (st : inflation) : result inflation :=
  match sorted_years !! (i - 1)%nat, sorted_years !! i with
  | Some previous_year, Some current_year =>
      foldM (segment_step yearly_segment_summary previous_year current_year)
            segment_names
            {| inflation_summary := <[current_year := ∅]> (inflation_summary st);
               inflation_analysis := inflation_analysis st |}
  | _, _ => Raise IndexError
  end.

(** Lines 88-106, [range(1, len(sorted_years))] being [seq 1 (len - 1)]. *)
Definition inflation_rates (yearly_segment_summary : gmap string (gmap string stats))
  : result inflation :=
  let sorted_years := sorted_keys yearly_segment_summary in
  foldM (year_step yearly_segment_summary sorted_years)
        (seq 1 (length sorted_years - 1))
        {| inflation_summary := ∅; inflation_analysis := [] |}.

(** ** [analyze_data], from the records read to the object written *)

(** [dict(sorted(d.items()))]: the items in the order of their keys. *)
Definition sorted_items {A} (d : gmap string A) : list (string * A) :=
  omap (fun k => (fun v => (k, v)) <$> d !! k) (sorted_keys d).

Record output := {
  out_inflation_analysis : list sentence;
  out_inflation_summary : list (string * gmap string (option Q));
  out_yearly_segment_summary : list (string * gmap string stats)
}.

Definition summarize (yearly_price_segments : gmap string (gmap string (list Q)))
  : gmap string (gmap string stats) :=
  (fun segments : gmap string (list Q) => calculate_statistics <$> segments)
    <$> yearly_price_segments.

Definition analyze_data (records : list json) : result output :=
  yearly_price_segments <- segment_records records ;;;
  let yearly_segment_summary := summarize yearly_price_segments in
  infl <- inflation_rates yearly_segment_summary ;;;
  Ok {| out_inflation_analysis := inflation_analysis infl;
        out_inflation_summary := sorted_items (inflation_summary infl);
        out_yearly_segment_summary := sorted_items yearly_segment_summary |}.

End Analysis.

(* ------------------------------------------------------------------ *)
(** * Vocabulary of the statements *)

Import Extraction Cleaning Analysis.

(** The range of a tier, as the specification gives it. *)
Definition in_tier (t : string) (p : Q) : Prop :=
  (t = "low" /\ 100 <= p /\ p <= 300)%Q \/
  (t = "mid" /\ 300 < p /\ p <= 700)%Q \/
  (t = "high" /\ 700 < p)%Q.

(** The prices of a tier of a year bucket; none for a year without a
    bucket. *)
Definition prices_at (yearly_price_segments : gmap string (gmap string (list Q)))
    (year tier : string) : list Q :=
  default [] (yearly_price_segments !! year ≫= fun segments => segments !! tier).

(** A record of the cleaned list that comes from a line of the input: it
    is that line's object normalized, and it passed the filter. *)
Definition from_input (parser_parse : json -> option string)
    (files : list (list line)) (r : gmap string json) : Prop :=
  exists f item,
    In f files /\ In (Parsed (JObj item)) f /\
    r = normalize parser_parse item /\ keep r = Ok true.

(** A date parser for the examples: a string is taken to be a timestamp in
    ISO form already and is returned as it is; anything else is refused. *)
Definition parse_iso (v : json) : option string :=
  match v with
  | JStr s => Some s
  | _ => None
  end.

(** Records for the examples. *)
Definition widget : gmap string json :=
  <["title" := JStr "Widget"]> (<["price" := JStr "$150"]> ∅).
Definition gadget : gmap string json :=
  <["title" := JStr "Gadget"]> (<["price" := JStr "$150"]> ∅).
Definition untitled : gmap string json := <["price" := JStr "$150"]> ∅.
Definition unpriced : gmap string json :=
  <["title" := JStr "Gadget"]> (<["price" := JStr "No Price Found"]> ∅).
Definition unparsed : gmap string json :=
  <["title" := JStr "Widget"]> (<["price" := JStr "abc"]> ∅).
Definition widget23 : gmap string json :=
  <["fetch_time" := JStr "2023-01-05T10:00:00"]> widget.
Definition gadget22 : gmap string json :=
  <["fetch_time" := JStr "2022-01-05T10:00:00"]> gadget.

(** The element queries of the two chains, in chain order. *)
Definition title_chain (d : soup) : list (option string) :=
  [sel_productTitle d; sel_btAsinTitle d; find_h1_title d; find_title d; find_h1 d].
Definition price_chain (d : soup) : list (option string) :=
  [sel_priceblock d; find_price_whole d; find_a_price d; find_buybox d].

(** The text of the first query that has an element. *)
Fixpoint first_present (chain : list (option string)) : option string :=
  match chain with
  | Some t :: _ => Some t
  | None :: chain' => first_present chain'
  | [] => None
  end.

(** Collaborators and a row for the examples: an archive whose byte range
    holds one response, a parser that finds the page with no price, and a
    conversion of timestamps that takes any string and puts a T for its
    spaces. *)
Definition one_response (bucket : string) (key : json) (first last : Z)
  : result (list warc_record) :=
  Ok [ {| rec_type := "request"; content := "GET /" |};
       {| rec_type := "response"; content := "<html>" |} ].

Fixpoint space_to_T (s : string) : string :=
  match s with
  | String c r => String (if Ascii.eqb c " " then "T"%char else c) (space_to_T r)
  | EmptyString => EmptyString
  end.

Definition any_string (v : json) : result string :=
  match v with
  | JStr s => Ok (space_to_T s)
  | _ => Raise ValueError
  end.

Definition widget_row : gmap string json :=
  <["url" := JStr "https://example.org/widget"]>
  (<["fetch_time" := JStr "2023-01-05 10:00:00"]>
  (<["warc_filename" := JStr "crawl/segment.warc.gz"]>
  (<["warc_record_offset" := JNum 1024]>
  (<["warc_record_length" := JNum 512]> ∅)))).

(** The chains as the specification words them: every strategy yields its
    trimmed match, if it has one, and the chain returns the first of these
    that is not empty, or the sentinel. *)
Fixpoint first_nonempty (candidates : list (option string)) (sentinel : string) : string :=
  match candidates with
  | Some t :: candidates' =>
      if (t =? "")%string then first_nonempty candidates' sentinel else t
  | None :: candidates' => first_nonempty candidates' sentinel
  | [] => sentinel
  end.

Definition spec_title (d : soup) : string :=
  first_nonempty
    (map (fmap strip) (title_chain d) ++ [strip <$> search_title (get_text d)])
    "No Title Found".

Definition spec_price (d : soup) : string :=
  first_nonempty
    (map (fmap strip) (price_chain d) ++ [strip <$> search_price (get_text d)])
    "No Price Found".

(** A page whose product-title element and price block are there but
    blank, with a document title and a whole-price element that are not:
    the elements [title] with text Widget, [span#productTitle] with a
    space, [span#priceblock_ourprice] with no text, and
    [span.a-price-whole] with text 150. *)
Definition blank_first_page : soup :=
  {| sel_productTitle := Some " ";
     sel_btAsinTitle := None;
     find_h1_title := None;
     find_title := Some "Widget";
     find_h1 := None;
     sel_priceblock := Some "";
     find_price_whole := Some "150";
     find_a_price := None;
     find_buybox := None;
     get_text := "Widget 150" |}.

(** A page with a product title and no price anywhere. *)
Definition no_price_page : soup :=
  {| sel_productTitle := Some " Widget ";
     sel_btAsinTitle := None;
     find_h1_title := None;
     find_title := None;
     find_h1 := None;
     sel_priceblock := None;
     find_price_whole := None;
     find_a_price := None;
     find_buybox := None;
     get_text := " Widget " |}.

(** The pairs of neighbours of a list, in order. *)
Fixpoint consecutive {A} (l : list A) : list (A * A) :=
  match l with
  | x :: l' =>
      match l' with
      | y :: _ => (x, y) :: consecutive l'
      | [] => []
      end
  | [] => []
  end.

(** A summary in which every year has the three segments, as every
    summary built by [summarize] from the buckets of the segmenter has. *)
Definition every_segment {A} (d : gmap string (gmap string A)) : Prop :=
  map_Forall (fun _ segments =>
                Forall (fun s => is_Some (segments !! s)) segment_names) d.

(** The average of a segment of a year, null also where there is none. *)
Definition avg_at (summary : gmap string (gmap string stats))
    (year segment : string) : option Q :=
  default None (summary !! year ≫= fun segments => average <$> segments !! segment).

(** The rate of a segment from one year to the next, as the specification
    words it: null unless both averages are there and the previous one is
    not zero. *)
Definition rate_of (prev_avg curr_avg : option Q) : option Q :=
  match prev_avg, curr_avg with
  | Some p, Some c =>
      if Qeq_bool p 0 then None else Some (round2 ((c - p) / p * 100))
  | _, _ => None
  end.

(** The sentence of a segment from one year to the next, if any. *)
Definition sentences_of (previous_year current_year segment : string)
    (prev_avg curr_avg : option Q) : list sentence :=
  match prev_avg, curr_avg with
  | Some p, Some c =>
      if Qeq_bool p 0 then []
      else
        let rate := ((c - p) / p * 100)%Q in
        if Qltb 0 rate then
          [ {| dir := increased; from_year := previous_year;
               to_year := current_year; percent := round2 rate;
               in_segment := segment |} ]
        else if Qltb rate 0 then
          [ {| dir := decreased; from_year := previous_year;
               to_year := current_year; percent := round2 (Qabs rate);
               in_segment := segment |} ]
        else []
  | _, _ => []
  end.

(** The rates and the sentences of a pair of years. *)
Definition year_rates (summary : gmap string (gmap string stats))
    (previous_year current_year : string) : gmap string (option Q) :=
  <["high" := rate_of (avg_at summary previous_year "high")
                      (avg_at summary current_year "high")]>
  (<["mid" := rate_of (avg_at summary previous_year "mid")
                      (avg_at summary current_year "mid")]>
  (<["low" := rate_of (avg_at summary previous_year "low")
                      (avg_at summary current_year "low")]> ∅)).

Definition year_sentences (summary : gmap string (gmap string stats))
    (years : string * string) : list sentence :=
  flat_map (fun s => sentences_of years.1 years.2 s
                       (avg_at summary years.1 s) (avg_at summary years.2 s))
           segment_names.

(** The table of rates after the loop has gone through some pairs of
    years. *)
Definition rates_after (summary : gmap string (gmap string stats))
    (pairs : list (string * string)) : gmap string (gmap string (option Q)) :=
  foldl (fun s pc => <[pc.2 := year_rates summary pc.1 pc.2]> s) ∅ pairs.





(** ** Vocabulary of the further properties *)

(** What a line contributes to the cleaned list: the normalized record of
    an object that the filter retains. *)
Definition kept (parser_parse : json -> option string) (l : line)
  : option (gmap string json) :=
  match l with
  | Parsed (JObj item) =>
      match keep (normalize parser_parse item) with
      | Ok true => Some (normalize parser_parse item)
      | _ => None
      end
  | _ => None
  end.

(** A line that raises nothing: a malformed line, or an object on which the
    filter raises nothing. *)
Definition line_ok (parser_parse : json -> option string) (l : line) : Prop :=
  match l with
  | Malformed => True
  | Parsed (JObj item) => exists b, keep (normalize parser_parse item) = Ok b
  | Parsed _ => False
  end.

(** A string that holds a digit. *)
Fixpoint has_digit (s : string) : bool :=
  match s with
  | String c r => is_digit c || has_digit r
  | EmptyString => false
  end.

(** The number a string of digits denotes, continuing the value [acc]. *)
Fixpoint digits_value (acc : Z) (s : string) : Z :=
  match s with
  | String c r => digits_value (acc * 10 + digit_val c) r
  | EmptyString => acc
  end.

Fixpoint no_char (p : ascii -> bool) (s : string) : bool :=
  match s with
  | String c r => negb (p c) && no_char p r
  | EmptyString => true
  end.

(** The lines of a batch as the extraction stage writes them and the
    cleaning stage reads them back. *)
Definition as_lines (records : list (gmap string json)) : list line :=
  map (fun pd => Parsed (JObj pd)) records.

(** What a record contributes to the buckets: the year, the tier and the
    price, for a record with a fetch time that is a non-empty string and a
    numeric price that has a tier. *)
Definition entry_of (record : json) : option (string * string * Q) :=
  match record with
  | JObj r =>
      match r !! "fetch_time" with
      | Some (JStr ft) =>
          if (ft =? "")%string then None
          else
            match r !! "price" with
            | Some v =>
                match as_number v with
                | Some p =>
                    match tier_of p with
                    | Some t => Some (take_prefix 4 ft, t, p)
                    | None => None
                    end
                | None => None
                end
            | None => None
            end
      | _ => None
      end
  | _ => None
  end.

(** The prices the records contribute to a tier of a year, in the order of
    the records. *)
Definition prices_of (records : list json) (year tier : string) : list Q :=
  omap (fun record =>
          match entry_of record with
          | Some (y, t, p) =>
              if bool_decide (y = year /\ t = tier) then Some p else None
          | None => None
          end) records.

(** Buckets in which every year holds a price. *)
Definition every_year_priced (yps : gmap string (gmap string (list Q))) : Prop :=
  forall y segments, yps !! y = Some segments ->
  exists t, In t segment_names /\ prices_at yps y t <> [].

(* ------------------------------------------------------------------ *)
(** * Comparisons *)

Lemma Qltb_lt (a b : Q) : Qltb a b = true <-> (a < b)%Q.
Proof.
  unfold Qltb. rewrite negb_true_iff. split.
  - intros H. apply Qnot_le_lt. intros Hle.
    apply Qle_bool_iff in Hle. congruence.
  - intros H. destruct (Qle_bool b a) eqn:E; [|reflexivity].
    apply Qle_bool_iff in E. lra.
Qed.

Lemma Qltb_ge (a b : Q) : Qltb a b = false <-> (b <= a)%Q.
Proof.
  unfold Qltb. rewrite negb_false_iff. apply Qle_bool_iff.
Qed.

Lemma Qle_bool_gt (a b : Q) : Qle_bool a b = false <-> (b < a)%Q.
Proof.
  rewrite <- Qltb_lt. unfold Qltb. now rewrite negb_true_iff.
Qed.

(** ** The tier of a price *)

Lemma tier_of_in_tier (p : Q) (t : string) : tier_of p = Some t <-> in_tier t p.
Proof.
  unfold tier_of, in_tier, LOW_PRICE_THRESHOLD, MID_PRICE_THRESHOLD.
  destruct (Qle_bool 100 p) eqn:E1; [apply Qle_bool_iff in E1|apply Qle_bool_gt in E1];
  destruct (Qle_bool p 300) eqn:E2; [apply Qle_bool_iff in E2|apply Qle_bool_gt in E2| |];
  cbn [andb].
  - split; [intros [= <-]; left; auto|].
    intros [(-> & _)|[(-> & H & _)|(-> & H)]]; [reflexivity|lra|lra].
  - assert (Qltb 300 p = true) as -> by now apply Qltb_lt.
    cbn [andb].
    destruct (Qle_bool p 700) eqn:E3; [apply Qle_bool_iff in E3|apply Qle_bool_gt in E3].
    + split; [intros [= <-]; right; left; auto|].
      intros [(-> & _ & H)|[(-> & _)|(-> & H)]]; [lra|reflexivity|lra].
    + assert (Qltb 700 p = true) as -> by now apply Qltb_lt.
      split; [intros [= <-]; right; right; auto|].
      intros [(-> & _ & H)|[(-> & _ & H)|(-> & _)]]; [lra|lra|reflexivity].
  - apply Qle_bool_iff in E2.
    assert (Qltb 300 p = false) as -> by (apply Qltb_ge; lra).
    assert (Qltb 700 p = false) as -> by (apply Qltb_ge; lra).
    cbn [andb]. split; [discriminate|].
    intros [(-> & H & _)|[(-> & H & _)|(-> & H)]]; lra.
  - apply Qle_bool_gt in E2. lra.
Qed.

Lemma in_tier_unique (p : Q) (t t' : string) : in_tier t p -> in_tier t' p -> t = t'.
Proof.
  intros H H'. apply tier_of_in_tier in H, H'. congruence.
Qed.

Lemma prices_at_append (yps : gmap string (gmap string (list Q))) (y t : string) (p : Q) :
  prices_at (append_price y t p yps) y t = (prices_at yps y t ++ [p])%list.
Proof.
  unfold prices_at, append_price. rewrite lookup_insert_eq. cbn.
  rewrite lookup_insert_eq. cbn.
  destruct (yps !! y) as [segs|] eqn:E; cbn; [reflexivity|].
  unfold new_segments.
  destruct (decide (t = "high")) as [->|]; [reflexivity|].
  rewrite lookup_insert_ne by done.
  destruct (decide (t = "mid")) as [->|]; [reflexivity|].
  rewrite lookup_insert_ne by done.
  destruct (decide (t = "low")) as [->|]; [reflexivity|].
  rewrite lookup_insert_ne by done. reflexivity.
Qed.

Lemma new_segments_default (t : string) : default [] (new_segments !! t) = @nil Q.
Proof.
  unfold new_segments.
  destruct (decide (t = "high")) as [->|]; [reflexivity|].
  rewrite lookup_insert_ne by done.
  destruct (decide (t = "mid")) as [->|]; [reflexivity|].
  rewrite lookup_insert_ne by done.
  destruct (decide (t = "low")) as [->|]; [reflexivity|].
  rewrite lookup_insert_ne by done. reflexivity.
Qed.

Lemma prices_at_append_other (yps : gmap string (gmap string (list Q)))
    (y t y' t' : string) (p : Q) :
  ~ (y' = y /\ t' = t) ->
  prices_at (append_price y t p yps) y' t' = prices_at yps y' t'.
Proof.
  intros Hne. unfold prices_at, append_price.
  destruct (decide (y' = y)) as [->|Hy].
  - rewrite lookup_insert_eq. cbn.
    assert (t' <> t) as Ht by (intros ->; apply Hne; auto).
    rewrite lookup_insert_ne by done.
    destruct (yps !! y) as [segs|]; cbn; [reflexivity|].
    apply new_segments_default.
  - rewrite lookup_insert_ne by done. reflexivity.
Qed.

Lemma truthy_JStr (s : string) : s <> "" -> truthy (JStr s) = true.
Proof.
  intros H. cbn. apply negb_true_iff. now apply String.eqb_neq.
Qed.

(* ------------------------------------------------------------------ *)
(** * The segmenter *)

(** C1. A record with a numeric price [p] and a fetch time is processed
    without an exception; [p] is appended to the tier of the bucket of the
    year [fetch_time[:4]] whose range holds it (low: 100 <= p <= 300, mid:
    300 < p <= 700, high: 700 < p), and every other tier of every bucket is
    left as it was; the ranges exclude one another, a price of 100 or more
    has one, and a price below 100 has none and changes nothing. *)
Theorem segmenter_one_tier (r : gmap string json) (ft : string) (v : json) (p : Q)
    (yps : gmap string (gmap string (list Q))) :
  r !! "fetch_time" = Some (JStr ft) -> ft <> "" ->
  r !! "price" = Some v -> as_number v = Some p ->
  exists yps',
    segment_record (JObj r) yps = Ok yps' /\
    (forall t, in_tier t p ->
       prices_at yps' (take_prefix 4 ft) t
       = (prices_at yps (take_prefix 4 ft) t ++ [p])%list) /\
    (forall y t, ~ (y = take_prefix 4 ft /\ in_tier t p) ->
       prices_at yps' y t = prices_at yps y t) /\
    (forall t t', in_tier t p -> in_tier t' p -> t = t') /\
    ((100 <= p)%Q -> exists t, in_tier t p) /\
    ((p < 100)%Q -> yps' = yps /\ forall t, ~ in_tier t p).
Proof.
  intros Hft Hne Hprice Hnum.
  assert (segment_record (JObj r) yps
          = Ok (match tier_of p with
                | Some t => append_price (take_prefix 4 ft) t p yps
                | None => yps
                end)) as Hrun.
  { unfold segment_record. rewrite Hft, Hprice. cbn [from_option id].
    rewrite truthy_JStr by assumption. cbn [negb slice4 rbind].
    destruct v as [|[]|q|s|l|m]; cbn in Hnum; try discriminate;
      injection Hnum as <-; cbn [as_number];
      match goal with |- context [tier_of ?x] => destruct (tier_of x) end;
      reflexivity. }
  eexists. split; [exact Hrun|].
  split; [|split; [|split; [|split]]].
  - intros t Ht. apply tier_of_in_tier in Ht. rewrite Ht.
    apply prices_at_append.
  - intros y t Hn. destruct (tier_of p) as [t0|] eqn:E; [|reflexivity].
    apply prices_at_append_other. intros [-> ->].
    apply Hn. split; [reflexivity|]. now apply tier_of_in_tier.
  - apply in_tier_unique.
  - intros Hp. destruct (tier_of p) as [t0|] eqn:E.
    + exists t0. now apply tier_of_in_tier.
    + exfalso.
      destruct (Qlt_le_dec 300 p) as [H3|H3].
      * destruct (Qlt_le_dec 700 p) as [H7|H7].
        -- assert (in_tier "high" p) as Hin by (right; right; auto).
           apply tier_of_in_tier in Hin. congruence.
        -- assert (in_tier "mid" p) as Hin by (right; left; auto).
           apply tier_of_in_tier in Hin. congruence.
      * assert (in_tier "low" p) as Hin by (left; auto).
        apply tier_of_in_tier in Hin. congruence.
  - intros Hp.
    assert (forall t, ~ in_tier t p) as Hno.
    { intros t [(_ & H & _)|[(_ & H & _)|(_ & H)]]; lra. }
    split; [|exact Hno].
    destruct (tier_of p) as [t0|] eqn:E; [|reflexivity].
    apply tier_of_in_tier in E. now apply Hno in E.
Qed.

Lemma segmenter_one_tier_witness :
  exists yps',
    segment_record
      (JObj (<["fetch_time" := JStr "2023-01-05T10:00:00"]> (<["price" := JNum 150]> ∅))) ∅
    = Ok yps' /\ prices_at yps' "2023" "low" = [150%Q].
Proof.
  destruct (segmenter_one_tier
              (<["fetch_time" := JStr "2023-01-05T10:00:00"]> (<["price" := JNum 150]> ∅))
              "2023-01-05T10:00:00" (JNum 150) 150 ∅)
    as (yps' & Hrun & Hin & _); [reflexivity|discriminate|reflexivity|reflexivity|].
  exists yps'. split; [exact Hrun|].
  apply (Hin "low"). left. split; [reflexivity|]. split; discriminate.
Defined.

(* ------------------------------------------------------------------ *)
(** * The normalizer and the filter *)

Lemma str_in_In (s : string) (l : list string) : str_in s l = true <-> In s l.
Proof.
  unfold str_in. rewrite existsb_exists. split.
  - intros (x & Hx & E). apply String.eqb_eq in E. now subst.
  - intros H. exists s. split; [assumption|apply String.eqb_refl].
Qed.

Lemma num_in_In (q : Q) (l : list Q) :
  num_in q l = true <-> exists y, In y l /\ q == y.
Proof.
  unfold num_in. rewrite existsb_exists.
  split; intros (y & Hy & E); exists y; (split; [assumption|]);
    now apply Qeq_bool_iff.
Qed.

Lemma normalize_price_other (item : gmap string json) (k : string) :
  k <> "price" -> normalize_price item !! k = item !! k.
Proof.
  intros Hk. unfold normalize_price.
  destruct (item !! "price") as [[| | |raw| |]|]; try reflexivity.
  destruct (isdigit _ || contains_char _ _).
  - destruct (py_float _); now rewrite !lookup_insert_ne by done.
  - now rewrite lookup_insert_ne by done.
Qed.

Lemma normalize_price_price (item : gmap string json) (raw : string) :
  item !! "price" = Some (JStr raw) ->
  let s := strip (remove_char "," (remove_char "$" raw)) in
  normalize_price item !! "price"
  = Some (if isdigit s || contains_char "." s
          then match py_float s with Some x => JNum x | None => JNull end
          else JStr s).
Proof.
  intros H s. unfold normalize_price. rewrite H. fold s.
  destruct (isdigit s || contains_char "." s).
  - destruct (py_float s); now rewrite lookup_insert_eq.
  - now rewrite lookup_insert_eq.
Qed.

Section CleaningFacts.
Variable parser_parse : json -> option string.

Lemma normalize_fetch_time_other (item : gmap string json) (k : string) :
  k <> "fetch_time" -> normalize_fetch_time parser_parse item !! k = item !! k.
Proof.
  intros Hk. unfold normalize_fetch_time.
  destruct (item !! "fetch_time") as [v|]; [|reflexivity].
  destruct (truthy v); [|reflexivity].
  destruct (parser_parse v); now rewrite lookup_insert_ne by done.
Qed.

Lemma normalize_title (item : gmap string json) :
  normalize parser_parse item !! "title" = item !! "title".
Proof.
  unfold normalize.
  rewrite normalize_fetch_time_other by done.
  now apply normalize_price_other.
Qed.

Lemma normalize_price_field (item : gmap string json) :
  normalize parser_parse item !! "price" = normalize_price item !! "price".
Proof.
  unfold normalize. now apply normalize_fetch_time_other.
Qed.

(** What a line does to the list, in one equation. *)
Lemma clean_line_object (item : gmap string json) (d : list (gmap string json)) :
  clean_line parser_parse (Parsed (JObj item)) d
  = match keep (normalize parser_parse item) with
    | Ok true => Ok (d ++ [normalize parser_parse item])%list
    | Ok false => Ok d
    | Raise e => Raise e
    end.
Proof.
  cbn. destruct (keep _) as [[]|]; reflexivity.
Qed.

Lemma clean_line_inv (l : line) (d d' : list (gmap string json)) (r : gmap string json) :
  clean_line parser_parse l d = Ok d' -> In r d' ->
  In r d \/ exists item, l = Parsed (JObj item) /\
                         r = normalize parser_parse item /\ keep r = Ok true.
Proof.
  destruct l as [|v]; cbn.
  - intros [= <-]. auto.
  - destruct v as [| | | | |item]; try discriminate.
    destruct (keep (normalize parser_parse item)) as [[]|] eqn:E; cbn;
      try discriminate; intros [= <-] Hin; auto.
    apply in_app_or in Hin as [Hin|[<-|[]]]; [auto|].
    right. exists item. auto.
Qed.

Lemma clean_file_inv (ls : list line) (d d' : list (gmap string json)) (r : gmap string json) :
  clean_file parser_parse ls d = Ok d' -> In r d' ->
  In r d \/ exists item, In (Parsed (JObj item)) ls /\
                         r = normalize parser_parse item /\ keep r = Ok true.
Proof.
  revert d. induction ls as [|l ls IH]; intros d; cbn.
  - intros [= <-]. auto.
  - destruct (clean_line parser_parse l d) as [d1|] eqn:E; cbn; [|discriminate].
    intros Hrun Hin.
    destruct (IH _ Hrun Hin) as [Hin1|(item & Hi & Hr)].
    + destruct (clean_line_inv _ _ _ _ E Hin1) as [?|(item & -> & Hr)]; [auto|].
      right. exists item. split; [now left|exact Hr].
    + right. exists item. split; [now right|exact Hr].
Qed.

Lemma clean_files_inv (files : list (list line)) (d d' : list (gmap string json))
    (r : gmap string json) :
  clean_files parser_parse files d = Ok d' -> In r d' ->
  In r d \/ from_input parser_parse files r.
Proof.
  revert d. induction files as [|f files IH]; intros d; cbn.
  - intros [= <-]. auto.
  - destruct (clean_file parser_parse f d) as [d1|] eqn:E; cbn; [|discriminate].
    intros Hrun Hin.
    destruct (IH _ Hrun Hin) as [Hin1|(f' & item & Hf & Hi & Hr)].
    + destruct (clean_file_inv _ _ _ _ E Hin1) as [?|(item & Hi & Hr)]; [auto|].
      right. exists f, item. destruct Hr. split; [now left|auto].
    + right. exists f', item. split; [now right|auto].
Qed.

(** An exception in a line leaves the whole function. *)
Lemma clean_file_raises (ls : list line) (l : line) (d : list (gmap string json)) :
  In l ls -> (forall d0, exists e, clean_line parser_parse l d0 = Raise e) ->
  exists e, clean_file parser_parse ls d = Raise e.
Proof.
  intros Hin Hl. revert d. induction ls as [|l' ls IH]; intros d; [destruct Hin|].
  cbn. destruct (clean_line parser_parse l' d) as [d1|e] eqn:E; cbn.
  - destruct Hin as [->|Hin]; [|now apply IH].
    destruct (Hl d) as (e & He). congruence.
  - eauto.
Qed.

Lemma clean_files_raises (files : list (list line)) (f : list line) (l : line)
    (d : list (gmap string json)) :
  In f files -> In l f ->
  (forall d0, exists e, clean_line parser_parse l d0 = Raise e) ->
  exists e, clean_files parser_parse files d = Raise e.
Proof.
  intros Hf Hin Hl. revert d. induction files as [|f' files IH]; intros d; [destruct Hf|].
  cbn. destruct (clean_file parser_parse f' d) as [d1|e] eqn:E; cbn.
  - destruct Hf as [->|Hf]; [|now apply IH].
    destruct (clean_file_raises f l d Hin Hl) as (e & He). congruence.
  - eauto.
Qed.

Lemma clean_file_app (ls1 ls2 : list line) (d : list (gmap string json)) :
  clean_file parser_parse (ls1 ++ ls2) d
  = rbind (clean_file parser_parse ls1 d) (clean_file parser_parse ls2).
Proof.
  revert d. induction ls1 as [|l ls1 IH]; intros d; cbn; [reflexivity|].
  destruct (clean_line parser_parse l d); cbn; [apply IH|reflexivity].
Qed.

Lemma clean_files_app (fs1 fs2 : list (list line)) (d : list (gmap string json)) :
  clean_files parser_parse (fs1 ++ fs2) d
  = rbind (clean_files parser_parse fs1 d) (clean_files parser_parse fs2).
Proof.
  revert d. induction fs1 as [|f fs1 IH]; intros d; cbn; [reflexivity|].
  destruct (clean_file parser_parse f d); cbn; [apply IH|reflexivity].
Qed.
End CleaningFacts.

Lemma price_ok_spec (item : gmap string json) :
  price_ok item = true <->
  (item !! "price" = None \/
   exists v x, item !! "price" = Some v /\ as_number v = Some x /\
               (99 <= x)%Q /\ forall y, In y year_like -> ~ x == y).
Proof.
  unfold price_ok. destruct (item !! "price") as [v|]; [|split; auto].
  destruct (as_number v) as [x|] eqn:E.
  - rewrite andb_true_iff, negb_true_iff, Qle_bool_iff. split.
    + intros [Hle Hin]. right. exists v, x. repeat split; auto.
      intros y Hy Heq.
      assert (num_in x year_like = true) by (apply num_in_In; eauto).
      congruence.
    + intros [|(v' & x' & Hv & Hx & Hle & Hy)]; [discriminate|].
      injection Hv as ->.
      rewrite E in Hx. injection Hx as <-. split; [assumption|].
      destruct (num_in x year_like) eqn:Hin; [|reflexivity].
      apply num_in_In in Hin as (y & Hy1 & Hy2). now apply Hy in Hy1.
  - split; [discriminate|].
    intros [|(v' & x' & Hv & Hx & _)]; [discriminate|].
    injection Hv as ->. congruence.
Qed.



(** C5 (as the claim states it, refuted). The price "abc" does not parse
    as a number, and yet the normalizer does not set it to null: the price
    stays the string. *)
Lemma normalize_price_unparsed_not_null :
  py_float (strip (remove_char "," (remove_char "$" "abc"))) = None /\
  normalize_price unparsed !! "price" <> Some JNull /\
  normalize_price unparsed !! "price" = Some (JStr "abc").
Proof.
  split; [reflexivity|]. split; [|reflexivity].
  assert (normalize_price unparsed !! "price" = Some (JStr "abc")) as -> by reflexivity.
  discriminate.
Qed.

(** C5 (amended). For a record whose price is a string, the normalizer
    removes the dollar signs and the commas and trims; when what remains is
    all digits or holds a dot it is parsed as a number, the price becoming
    that number, or null when the parse fails; otherwise the price stays
    the trimmed string.  No other field changes, and "$1,299.00" becomes
    1299. *)
Theorem normalize_price_string (item : gmap string json) (raw : string) :
  item !! "price" = Some (JStr raw) ->
  let s := strip (remove_char "," (remove_char "$" raw)) in
  normalize_price item !! "price"
  = Some (if isdigit s || contains_char "." s
          then match py_float s with Some x => JNum x | None => JNull end
          else JStr s) /\
  (forall k, k <> "price" -> normalize_price item !! k = item !! k) /\
  (raw = "$1,299.00" -> normalize_price item !! "price" = Some (JNum 1299)).
Proof.
  intros H s. split; [now apply normalize_price_price|].
  split; [intros k Hk; now apply normalize_price_other|].
  intros ->. now rewrite (normalize_price_price _ _ H).
Qed.

Lemma normalize_price_string_witness :
  normalize_price (<["price" := JStr "$1,299.00"]> (<["title" := JStr "Widget"]> ∅))
    !! "price" = Some (JNum 1299).
Proof.
  apply (normalize_price_string _ "$1,299.00"); reflexivity.
Defined.

Lemma keep_without_title (item : gmap string json) :
  item !! "title" = None -> keep item = Raise KeyError.
Proof.
  intros H. unfold keep. now rewrite H.
Qed.

(** A title that is not a string has no [lower]. *)
Lemma keep_title_not_string (item : gmap string json) (v : json) :
  item !! "title" = Some v -> (forall s, v <> JStr s) ->
  keep item = Raise AttributeError.
Proof.
  intros H Hv. unfold keep. rewrite H.
  destruct v; try reflexivity. now destruct (Hv s).
Qed.

(** C8. Only a malformed line is skipped.  A line that is an object
    without the key title raises [KeyError] at the lookup of the title, and
    an input that holds such a line makes [clean_data] end in an exception,
    before the list is written; that exception is this [KeyError] whenever
    the lines before it raise nothing. *)
Theorem missing_title_aborts (parser_parse : json -> option string)
    (files : list (list line)) (f : list line) (item : gmap string json) :
  In f files -> In (Parsed (JObj item)) f -> item !! "title" = None ->
  (forall d, clean_line parser_parse (Parsed (JObj item)) d = Raise KeyError) /\
  (exists e, clean_data parser_parse files = Raise e) /\
  (forall fs1 fs2 ls1 ls2 d1 d2,
     files = (fs1 ++ (ls1 ++ Parsed (JObj item) :: ls2) :: fs2)%list ->
     clean_files parser_parse fs1 [] = Ok d1 ->
     clean_file parser_parse ls1 d1 = Ok d2 ->
     clean_data parser_parse files = Raise KeyError) /\
  (forall d, clean_line parser_parse Malformed d = Ok d).
Proof.
  intros Hf Hl Ht.
  assert (forall d, clean_line parser_parse (Parsed (JObj item)) d = Raise KeyError)
    as Hline.
  { intros d. rewrite clean_line_object, keep_without_title; [reflexivity|].
    now rewrite normalize_title. }
  split; [exact Hline|]. split; [|split].
  - apply (clean_files_raises parser_parse files f (Parsed (JObj item)));
      [assumption|assumption|eauto].
  - intros fs1 fs2 ls1 ls2 d1 d2 -> H1 H2. unfold clean_data.
    rewrite clean_files_app, H1. cbn [rbind clean_files].
    rewrite clean_file_app, H2. cbn [rbind clean_file].
    now rewrite Hline.
  - reflexivity.
Qed.

Lemma missing_title_aborts_witness :
  clean_data parse_iso
    [[Parsed (JObj widget); Malformed; Parsed (JObj untitled); Parsed (JObj gadget)]]
  = Raise KeyError.
Proof.
  destruct (missing_title_aborts parse_iso
              [[Parsed (JObj widget); Malformed; Parsed (JObj untitled);
                Parsed (JObj gadget)]]
              [Parsed (JObj widget); Malformed; Parsed (JObj untitled);
               Parsed (JObj gadget)]
              untitled)
    as (_ & _ & H & _).
  - left. reflexivity.
  - right. right. left. reflexivity.
  - reflexivity.
  - eapply (H [] [] [_; _] [_]); reflexivity.
Defined.

Lemma price_ok_string (item : gmap string json) (s : string) :
  item !! "price" = Some (JStr s) -> price_ok item = false.
Proof.
  intros H. unfold price_ok. now rewrite H.
Qed.

Lemma keep_price_ok (item : gmap string json) : keep item = Ok true -> price_ok item = true.
Proof.
  unfold keep. destruct (item !! "title") as [t|]; [|discriminate].
  destruct (json_in t error_titles); [discriminate|].
  destruct t; try discriminate.
  destruct (str_in _ _); [discriminate|]. now intros [= ->].
Qed.

(** C10. For a record whose price is the string "No Price Found", the
    guard of the price normalization fails and the price stays that string;
    the condition of the filter on the price is false, so the filter does
    not retain the record and its line leaves the cleaned list as it was.
    Hence every record of a cleaned list that is written is the normalized
    record of an input line whose price was not "No Price Found", and its
    own price is not that string. *)
Theorem sentinel_price_never_cleaned (parser_parse : json -> option string) :
  (forall item,
     item !! "price" = Some (JStr "No Price Found") ->
     normalize parser_parse item !! "price" = Some (JStr "No Price Found") /\
     price_ok (normalize parser_parse item) = false /\
     keep (normalize parser_parse item) <> Ok true /\
     forall d d', clean_line parser_parse (Parsed (JObj item)) d = Ok d' -> d' = d) /\
  (forall files out,
     clean_data parser_parse files = Ok out ->
     forall r, In r out ->
       r !! "price" <> Some (JStr "No Price Found") /\
       exists f item,
         In f files /\ In (Parsed (JObj item)) f /\
         r = normalize parser_parse item /\
         item !! "price" <> Some (JStr "No Price Found")).
Proof.
  assert (forall item,
            item !! "price" = Some (JStr "No Price Found") ->
            normalize parser_parse item !! "price" = Some (JStr "No Price Found"))
    as Hnorm.
  { intros item H. rewrite normalize_price_field.
    now rewrite (normalize_price_price _ _ H). }
  assert (forall item,
            item !! "price" = Some (JStr "No Price Found") ->
            keep (normalize parser_parse item) <> Ok true) as Hkeep.
  { intros item H Hk. apply keep_price_ok in Hk.
    rewrite (price_ok_string _ _ (Hnorm _ H)) in Hk. discriminate. }
  split.
  - intros item H. split; [now apply Hnorm|].
    split; [apply (price_ok_string _ _ (Hnorm _ H))|].
    split; [now apply Hkeep|].
    intros d d'. rewrite clean_line_object.
    destruct (keep (normalize parser_parse item)) as [[]|] eqn:E;
      [now apply Hkeep in E|now intros [= <-]|discriminate].
  - intros files out Hrun r Hin.
    destruct (clean_files_inv parser_parse files [] out r Hrun Hin)
      as [[]|(f & item & Hf & Hi & -> & Hk)].
    split.
    + intros Hp. apply keep_price_ok in Hk.
      rewrite (price_ok_string _ _ Hp) in Hk. discriminate.
    + exists f, item. repeat split; try assumption.
      intros Hp. now apply Hkeep in Hp.
Qed.

Lemma sentinel_price_never_cleaned_witness :
  keep (normalize parse_iso unpriced) <> Ok true /\
  clean_data parse_iso [[Parsed (JObj unpriced); Parsed (JObj widget)]]
  = Ok [normalize parse_iso widget] /\
  normalize parse_iso widget !! "price" <> Some (JStr "No Price Found").
Proof.
  destruct (sentinel_price_never_cleaned parse_iso) as [Hitem Hout].
  assert (clean_data parse_iso [[Parsed (JObj unpriced); Parsed (JObj widget)]]
          = Ok [normalize parse_iso widget]) as Hrun by reflexivity.
  split; [|split].
  - apply Hitem. reflexivity.
  - exact Hrun.
  - apply (Hout _ _ Hrun). left. reflexivity.
Defined.

(* ------------------------------------------------------------------ *)
(** * The field extractor *)

Lemma or_default_nonempty (s dflt : string) : dflt <> "" -> or_default s dflt <> "".
Proof.
  intros H. unfold or_default. destruct (s =? "")%string eqn:E; [assumption|].
  now apply String.eqb_neq.
Qed.

Lemma or_default_spec (s dflt : string) :
  (s = "" -> or_default s dflt = dflt) /\ (s <> "" -> or_default s dflt = s).
Proof.
  unfold or_default. split.
  - intros ->. reflexivity.
  - intros H. apply String.eqb_neq in H. now rewrite H.
Qed.

Lemma extract_title (d : soup) :
  extract_product_data d !! "title"
  = Some (JStr (or_default (title_of d) "No Title Found")).
Proof. reflexivity. Qed.

Lemma extract_price (d : soup) :
  extract_product_data d !! "price"
  = Some (JStr (or_default (price_of d) "No Price Found")).
Proof. reflexivity. Qed.

(** C4 (as the claim states it, refuted). On a page whose product-title
    element is present with blank text, the title is the sentinel although
    the document title, later in the chain, is Widget; and its price is the
    sentinel although the whole-price element holds 150. *)
Lemma blank_first_match_wins :
  extract_product_data blank_first_page !! "title" = Some (JStr "No Title Found") /\
  spec_title blank_first_page = "Widget" /\
  extract_product_data blank_first_page !! "price" = Some (JStr "No Price Found") /\
  spec_price blank_first_page = "150".
Proof.
  repeat split.
Qed.

(** C4 (amended). Each chain takes the first strategy, in chain order,
    whose element is present, and the trimmed text of that element is the
    value, whatever later strategies would yield; the regular expression
    over the visible text is tried only when no element is present (its
    group trimmed for the title, its match as it is for the price).  The
    field is the sentinel exactly when the value so chosen is empty or no
    strategy matches. *)
Theorem chain_first_present (d : soup) :
  title_of d
  = match first_present (title_chain d) with
    | Some t => strip t
    | None => default "" (strip <$> search_title (get_text d))
    end /\
  price_of d
  = match first_present (price_chain d) with
    | Some t => strip t
    | None => default "" (search_price (get_text d))
    end /\
  extract_product_data d !! "title"
  = Some (JStr (if (title_of d =? "")%string then "No Title Found" else title_of d)) /\
  extract_product_data d !! "price"
  = Some (JStr (if (price_of d =? "")%string then "No Price Found" else price_of d)) /\
  (forall pre t post,
     title_chain d = (pre ++ Some t :: post)%list -> Forall (eq None) pre ->
     title_of d = strip t) /\
  (forall pre t post,
     price_chain d = (pre ++ Some t :: post)%list -> Forall (eq None) pre ->
     price_of d = strip t).
Proof.
  assert (forall chain pre t post,
            chain = (pre ++ Some t :: post)%list -> Forall (eq None) pre ->
            first_present chain = Some t) as Hfirst.
  { intros chain pre t post -> Hpre.
    induction Hpre as [|x pre <- _ IH]; [reflexivity|exact IH]. }
  assert (title_of d
          = match first_present (title_chain d) with
            | Some t => strip t
            | None => default "" (strip <$> search_title (get_text d))
            end) as Ht.
  { unfold title_of, title_chain. cbn [first_present].
    destruct (sel_productTitle d); [reflexivity|].
    destruct (sel_btAsinTitle d); [reflexivity|].
    destruct (find_h1_title d); [reflexivity|].
    destruct (find_title d); [reflexivity|].
    destruct (find_h1 d); [reflexivity|].
    destruct (search_title (get_text d)); reflexivity. }
  assert (price_of d
          = match first_present (price_chain d) with
            | Some t => strip t
            | None => default "" (search_price (get_text d))
            end) as Hp.
  { unfold price_of, price_chain. cbn [first_present].
    destruct (sel_priceblock d); [reflexivity|].
    destruct (find_price_whole d); [reflexivity|].
    destruct (find_a_price d); [reflexivity|].
    destruct (find_buybox d); [reflexivity|].
    destruct (search_price (get_text d)); reflexivity. }
  split; [exact Ht|]. split; [exact Hp|].
  split; [reflexivity|]. split; [reflexivity|]. split.
  - intros pre t post Hc Hpre. rewrite Ht. now rewrite (Hfirst _ _ _ _ Hc Hpre).
  - intros pre t post Hc Hpre. rewrite Hp. now rewrite (Hfirst _ _ _ _ Hc Hpre).
Qed.

Lemma chain_first_present_witness :
  title_of blank_first_page = "" /\ price_of no_price_page = "" /\
  title_of no_price_page = "Widget".
Proof.
  split; [|split].
  - destruct (chain_first_present blank_first_page) as (_ & _ & _ & _ & H & _).
    apply (H [] " " [None; None; Some "Widget"; None]);
      [reflexivity|constructor].
  - destruct (chain_first_present no_price_page) as (_ & H & _). exact H.
  - destruct (chain_first_present no_price_page) as (_ & _ & _ & _ & H & _).
    apply (H [] " Widget " [None; None; None; None]); [reflexivity|constructor].
Defined.

(** C9. Whatever the page, the record of [extract_product_data] holds a
    title and a price that are strings and not empty; so a dictionary with
    that title has a true value, and no row ends in the branch that drops
    a record for holding no product data. *)
Theorem extracted_fields_nonempty :
  (forall d, exists t p,
     extract_product_data d !! "title" = Some (JStr t) /\ t <> "" /\
     extract_product_data d !! "price" = Some (JStr p) /\ p <> "") /\
  (forall d (product_data : gmap string json),
     product_data !! "title" = extract_product_data d !! "title" ->
     any_values product_data = true) /\
  (forall get_object BeautifulSoup to_datetime record_dict,
     process_record get_object BeautifulSoup to_datetime record_dict
     <> NoProductData).
Proof.
  assert (forall d (product_data : gmap string json),
            product_data !! "title" = extract_product_data d !! "title" ->
            any_values product_data = true) as Hany.
  { intros d pd H. unfold any_values. apply bool_decide_eq_true.
    exists "title", (JStr (or_default (title_of d) "No Title Found")).
    split; [now rewrite H|].
    apply truthy_JStr. now apply or_default_nonempty. }
  split; [|split; [exact Hany|]].
  - intros d. eexists _, _.
    split; [apply extract_title|]. split; [now apply or_default_nonempty|].
    split; [apply extract_price|]. now apply or_default_nonempty.
  - intros get bs todt row. unfold process_record.
    destruct (extract_data_from_warc get row) as [[html|]|]; try discriminate.
    destruct (html =? "")%string; [discriminate|].
    destruct (row !! "url") as [url|]; [|discriminate].
    destruct (attach_fetch_time todt row _) as [pd|] eqn:E; [|discriminate].
    rewrite (Hany (bs html) pd); [discriminate|].
    unfold attach_fetch_time in E.
    destruct (row !! "fetch_time") as [ft|].
    + destruct (truthy ft).
      * destruct (todt ft) as [iso|[]]; try discriminate;
          injection E as <-; now rewrite !lookup_insert_ne by done.
      * injection E as <-. now rewrite lookup_insert_ne by done.
    + injection E as <-. now rewrite lookup_insert_ne by done.
Qed.

(** A row whose archive record resolves is appended, here with the
    sentinel for the price. *)
Example resolved_row_is_appended :
  exists product_data,
    process_record one_response (fun _ => no_price_page) any_string widget_row
    = Appended product_data /\
    product_data !! "title" = Some (JStr "Widget") /\
    product_data !! "price" = Some (JStr "No Price Found") /\
    product_data !! "url" = Some (JStr "https://example.org/widget").
Proof.
  unfold process_record.
  assert (extract_data_from_warc one_response widget_row = Ok (Some "<html>"))
    as -> by reflexivity.
  cbn [String.eqb Ascii.eqb Bool.eqb].
  assert (widget_row !! "url" = Some (JStr "https://example.org/widget"))
    as -> by reflexivity.
  assert (attach_fetch_time any_string widget_row
            (<["url" := JStr "https://example.org/widget"]>
               (extract_product_data no_price_page))
          = Ok (<["fetch_time" := JStr "2023-01-05T10:00:00"]>
                  (<["url" := JStr "https://example.org/widget"]>
                     (extract_product_data no_price_page))))
    as -> by reflexivity.
  set (pd := <["fetch_time" := _]> _).
  assert (any_values pd = true) as ->.
  { apply bool_decide_eq_true. exists "title", (JStr "Widget").
    split; reflexivity. }
  exists pd. repeat split.
Qed.

Lemma extracted_fields_nonempty_witness :
  any_values (<["url" := JStr ""]> (extract_product_data no_price_page)) = true.
Proof.
  destruct extracted_fields_nonempty as (_ & H & _).
  apply (H no_price_page). reflexivity.
Defined.

(* ------------------------------------------------------------------ *)
(** * Statistics *)

Local Open Scope Q_scope.

Lemma round_half_even_proper (x y : Q) :
  x == y -> round_half_even x = round_half_even y.
Proof.
  intros H. unfold round_half_even.
  rewrite (Qfloor_comp _ _ H).
  assert (2 * (x - inject_Z (Qfloor y)) == 2 * (y - inject_Z (Qfloor y))) as E
    by (rewrite H; reflexivity).
  now rewrite (Qcompare_comp _ _ E 1 1 (Qeq_refl 1)).
Qed.


Lemma round_half_even_Z (n : Z) : round_half_even (inject_Z n) = n.
Proof.
  unfold round_half_even. rewrite Qfloor_Z.
  assert ((2 * (inject_Z n - inject_Z n) ?= 1) = Lt) as ->; [|reflexivity].
  rewrite <- Qlt_alt. lra.
Qed.

(** A number with two decimals or fewer is its own rounding. *)
Lemma round2_two_decimals (x : Q) (n : Z) : x == n # 100 -> round2 x == x.
Proof.
  intros H. unfold round2.
  rewrite (round_half_even_proper (x * 100) (inject_Z n)).
  - rewrite round_half_even_Z, Qred_correct. now symmetry.
  - rewrite H. unfold Qeq, inject_Z. cbn. lia.
Qed.






Local Close Scope Q_scope.

(* ------------------------------------------------------------------ *)
(** * The order of the years *)

Lemma string_compare_OT (a b : string) : String_as_OT.compare a b = String.compare a b.
Proof.
  revert b. induction a as [|x a IH]; intros [|y b]; cbn; reflexivity.
Qed.

Lemma str_le_compare (a b : string) : str_le a b <-> String_as_OT.compare a b <> Gt.
Proof.
  unfold str_le, String.leb. rewrite <- (string_compare_OT a b).
  destruct (String_as_OT.compare a b); split; intros; congruence.
Qed.

#[global] Instance str_le_trans : Transitive str_le.
Proof.
  intros a b c. rewrite !str_le_compare. intros Hab Hbc Hca.
  destruct (String_as_OT.compare_spec a c) as [| |Hac]; try discriminate.
  destruct (String_as_OT.compare_spec a b) as [->|Hab'|]; [| |congruence];
  destruct (String_as_OT.compare_spec b c) as [->|Hbc'|]; try congruence.
  all: unfold String_as_OT.eq in *; subst.
  all: apply (StrictOrder_Irreflexive c); try assumption.
  all: try (transitivity b; assumption); try (transitivity a; assumption).
  transitivity a; [assumption|]. transitivity b; assumption.
Qed.

#[global] Instance str_le_total : Total str_le.
Proof. intros a b. apply String.leb_total. Qed.

#[global] Instance str_le_antisym : AntiSymm (=) str_le.
Proof. intros a b. apply String.leb_antisym. Qed.

Section SortedKeys.
Context {A : Type} (d : gmap string A).

Lemma sorted_keys_perm : sorted_keys d ≡ₚ (map_to_list d).*1.
Proof. apply merge_sort_Permutation. Qed.

Lemma sorted_keys_sorted : StronglySorted str_le (sorted_keys d).
Proof. apply StronglySorted_merge_sort; apply _. Qed.

Lemma sorted_keys_NoDup : NoDup (sorted_keys d).
Proof. rewrite sorted_keys_perm. apply NoDup_fst_map_to_list. Qed.

Lemma sorted_keys_elem (y : string) : y ∈ sorted_keys d <-> is_Some (d !! y).
Proof.
  rewrite sorted_keys_perm, list_elem_of_fmap. split.
  - intros ([k v] & -> & H). apply elem_of_map_to_list in H. cbn. eauto.
  - intros [v H]. exists (y, v). split; [reflexivity|].
    now apply elem_of_map_to_list.
Qed.
End SortedKeys.

(* ------------------------------------------------------------------ *)
(** * Neighbours of a list *)

Section Consecutive.
Context {A : Type}.
Implicit Types l : list A.

Lemma consecutive_lookup l (k : nat) (a b : A) :
  consecutive l !! k = Some (a, b) <-> l !! k = Some a /\ l !! S k = Some b.
Proof.
  revert k. induction l as [|x [|y l] IH]; intros k.
  - cbn. split; [discriminate|intros [? _]; discriminate].
  - cbn. split; [discriminate|]. intros [_ H]. destruct k; discriminate.
  - change (consecutive (x :: y :: l)) with ((x, y) :: consecutive (y :: l)).
    destruct k as [|k]; [cbn; split; [intros [= -> ->]|intros [[= ->] [= ->]]]; auto|].
    change (((x, y) :: consecutive (y :: l)) !! S k) with (consecutive (y :: l) !! k).
    rewrite IH. reflexivity.
Qed.

Lemma consecutive_length l : length (consecutive l) = (length l - 1)%nat.
Proof.
  induction l as [|x [|y l] IH]; [reflexivity..|].
  change (consecutive (x :: y :: l)) with ((x, y) :: consecutive (y :: l)).
  cbn [length] in *. lia.
Qed.

Lemma consecutive_snd l : (consecutive l).*2 = tail l.
Proof.
  induction l as [|x [|y l] IH]; [reflexivity..|].
  change (consecutive (x :: y :: l)) with ((x, y) :: consecutive (y :: l)).
  cbn. cbn in IH. now rewrite IH.
Qed.

Lemma consecutive_elem l (a b : A) :
  (a, b) ∈ consecutive l -> a ∈ l /\ b ∈ l.
Proof.
  intros H. apply list_elem_of_lookup in H as [k H].
  apply consecutive_lookup in H as [H1 H2].
  split; eapply list_elem_of_lookup_2; eassumption.
Qed.
End Consecutive.

Lemma foldM_app {A B} (f : B -> A -> result A) (l1 l2 : list B) (a : A) :
  foldM f (l1 ++ l2) a = rbind (foldM f l1 a) (foldM f l2).
Proof.
  revert a. induction l1 as [|x l1 IH]; intros a; cbn; [reflexivity|].
  destruct (f x a); cbn; [apply IH|reflexivity].
Qed.

(* ------------------------------------------------------------------ *)
(** * The inflation loop *)

Section Inflation.
Variable summary : gmap string (gmap string stats).
Hypothesis Hsegments : every_segment summary.

Lemma average_at_ok (y s : string) :
  is_Some (summary !! y) -> s ∈ segment_names ->
  average_at summary y s = Ok (avg_at summary y s).
Proof.
  intros [segments Hy] Hs. unfold average_at, avg_at. rewrite Hy. cbn.
  pose proof (Hsegments y segments Hy) as Hall. cbn beta in Hall.
  rewrite Forall_forall in Hall. destruct (Hall s Hs) as [st ->]. reflexivity.
Qed.

(** The body of the loop over the segments, in one equation. *)
Lemma segment_step_eq (prev curr s : string) (st : inflation) :
  is_Some (summary !! prev) -> is_Some (summary !! curr) -> s ∈ segment_names ->
  segment_step summary prev curr s st
  = Ok {| inflation_summary :=
            set_rate curr s (rate_of (avg_at summary prev s) (avg_at summary curr s))
                     (inflation_summary st);
          inflation_analysis :=
            (inflation_analysis st
             ++ sentences_of prev curr s (avg_at summary prev s) (avg_at summary curr s))%list |}.
Proof.
  intros Hp Hc Hs. unfold segment_step.
  rewrite (average_at_ok prev s Hp Hs), (average_at_ok curr s Hc Hs).
  cbn [rbind]. unfold rate_of, sentences_of.
  destruct (avg_at summary prev s) as [p|], (avg_at summary curr s) as [c|];
    rewrite ?app_nil_r; try reflexivity.
  destruct (Qeq_bool p 0); cbn [negb]; rewrite ?app_nil_r; [reflexivity|].
  destruct (Qltb 0 _); [reflexivity|].
  destruct (Qltb _ 0); rewrite ?app_nil_r; reflexivity.
Qed.

(** The body of the loop over the years, in one equation. *)
Lemma year_step_eq (years : list string) (i : nat) (prev curr : string)
    (st : inflation) :
  years !! (i - 1)%nat = Some prev -> years !! i = Some curr ->
  is_Some (summary !! prev) -> is_Some (summary !! curr) ->
  year_step summary years i st
  = Ok {| inflation_summary :=
            <[curr := year_rates summary prev curr]> (inflation_summary st);
          inflation_analysis :=
            (inflation_analysis st ++ year_sentences summary (prev, curr))%list |}.
Proof.
  intros Hi1 Hi Hp Hc. unfold year_step. rewrite Hi1, Hi.
  unfold segment_names. cbn [foldM].
  rewrite (segment_step_eq prev curr "low") by (done || set_solver). cbn [rbind].
  rewrite (segment_step_eq prev curr "mid") by (done || set_solver). cbn [rbind].
  rewrite (segment_step_eq prev curr "high") by (done || set_solver). cbn [rbind].
  cbn [inflation_summary inflation_analysis]. f_equal. f_equal.
  - unfold set_rate, year_rates.
    rewrite !lookup_insert_eq. cbn [from_option id].
    rewrite !insert_insert_eq. reflexivity.
  - unfold year_sentences, segment_names. cbn [flat_map fst snd].
    rewrite app_nil_r, <- !app_assoc. reflexivity.
Qed.

Lemma loop_prefix (years : list string) (k : nat) :
  (forall y, y ∈ years -> is_Some (summary !! y)) ->
  (k <= length years - 1)%nat ->
  foldM (year_step summary years) (seq 1 k)
        {| inflation_summary := ∅; inflation_analysis := [] |}
  = Ok {| inflation_summary := rates_after summary (take k (consecutive years));
          inflation_analysis :=
            flat_map (year_sentences summary) (take k (consecutive years)) |}.
Proof.
  intros Hkeys. induction k as [|k IH]; intros Hk; [reflexivity|].
  rewrite seq_S, foldM_app, IH by lia. cbn [rbind foldM].
  destruct (lookup_lt_is_Some_2 years k) as [prev Hprev]; [lia|].
  destruct (lookup_lt_is_Some_2 years (S k)) as [curr Hcurr]; [lia|].
  rewrite (year_step_eq years (1 + k) prev curr).
  - cbn [rbind inflation_summary inflation_analysis].
    assert (consecutive years !! k = Some (prev, curr)) as Hpair
      by now apply consecutive_lookup.
    rewrite (take_S_r _ _ _ Hpair).
    unfold rates_after. rewrite foldl_app, flat_map_app. cbn [foldl flat_map fst snd].
    rewrite app_nil_r. reflexivity.
  - replace (1 + k - 1)%nat with k by lia. exact Hprev.
  - exact Hcurr.
  - apply Hkeys. eapply list_elem_of_lookup_2; eassumption.
  - apply Hkeys. eapply list_elem_of_lookup_2; eassumption.
Qed.

Lemma rates_after_other (pairs : list (string * string))
    (s : gmap string (gmap string (option Q))) (y : string) :
  y ∉ pairs.*2 ->
  foldl (fun s pc => <[pc.2 := year_rates summary pc.1 pc.2]> s) s pairs !! y = s !! y.
Proof.
  revert s. induction pairs as [|[p c] pairs IH]; intros s Hy; [reflexivity|].
  cbn [foldl]. rewrite IH.
  - apply lookup_insert_ne. intros <-. apply Hy. cbn. left.
  - intros H. apply Hy. cbn. now right.
Qed.

Lemma rates_after_lookup (pairs : list (string * string)) (p c : string) :
  NoDup pairs.*2 -> (p, c) ∈ pairs ->
  rates_after summary pairs !! c = Some (year_rates summary p c).
Proof.
  unfold rates_after. generalize (∅ : gmap string (gmap string (option Q))).
  induction pairs as [|[p0 c0] pairs IH]; intros s Hnd Hin.
  - now apply elem_of_nil in Hin.
  - cbn in Hnd. apply NoDup_cons in Hnd as [Hc0 Hnd]. cbn [foldl].
    apply elem_of_cons in Hin as [[= -> ->]|Hin].
    + rewrite rates_after_other by assumption. apply lookup_insert_eq.
    + now apply IH.
Qed.

(** The loop, in one equation. *)
Lemma inflation_rates_eq :
  inflation_rates summary
  = Ok {| inflation_summary := rates_after summary (consecutive (sorted_keys summary));
          inflation_analysis :=
            flat_map (year_sentences summary) (consecutive (sorted_keys summary)) |}.
Proof.
  unfold inflation_rates.
  rewrite loop_prefix.
  - rewrite take_ge; [reflexivity|]. rewrite consecutive_length. lia.
  - intros y. apply sorted_keys_elem.
  - lia.
Qed.

Lemma recorded_rate (prev curr s : string) :
  (prev, curr) ∈ consecutive (sorted_keys summary) -> s ∈ segment_names ->
  rates_after summary (consecutive (sorted_keys summary)) !! curr
    ≫= (fun rates => rates !! s)
  = Some (rate_of (avg_at summary prev s) (avg_at summary curr s)).
Proof.
  intros Hin Hs. rewrite (rates_after_lookup _ prev curr).
  - cbn. unfold year_rates.
    unfold segment_names in Hs.
    repeat (apply elem_of_cons in Hs as [->|Hs]; [reflexivity|]).
    now apply elem_of_nil in Hs.
  - rewrite consecutive_snd.
    pose proof (sorted_keys_NoDup summary) as Hnd.
    destruct (sorted_keys summary); [constructor|].
    now apply NoDup_cons in Hnd as [_ Hnd].
  - assumption.
Qed.
End Inflation.

Local Open Scope Q_scope.

Lemma Qeq_bool_false (p q : Q) : Qeq_bool p q = false <-> ~ p == q.
Proof.
  split.
  - intros H E. apply Qeq_bool_iff in E. congruence.
  - intros H. destruct (Qeq_bool p q) eqn:E; [|reflexivity].
    apply Qeq_bool_iff in E. contradiction.
Qed.

(** The rate is null exactly when an average is null or the previous one
    is zero. *)
Lemma rate_of_None (prev_avg curr_avg : option Q) :
  rate_of prev_avg curr_avg = None <->
  prev_avg = None \/ curr_avg = None \/ exists p, prev_avg = Some p /\ p == 0.
Proof.
  unfold rate_of. destruct prev_avg as [p|], curr_avg as [c|]; try tauto.
  - destruct (Qeq_bool p 0) eqn:E.
    + apply Qeq_bool_iff in E. split; [|reflexivity]. eauto.
    + apply Qeq_bool_false in E. split; [discriminate|].
      intros [|[|(p' & [= <-] & H)]]; try discriminate. contradiction.
Qed.









Local Close Scope Q_scope.

(* ------------------------------------------------------------------ *)
(** * The summaries the analysis builds *)

Lemma new_segments_complete :
  Forall (fun s => is_Some (new_segments !! s)) segment_names.
Proof.
  unfold segment_names. repeat constructor; eexists; reflexivity.
Qed.

Lemma append_price_complete (y t : string) (p : Q)
    (yps : gmap string (gmap string (list Q))) :
  every_segment yps -> every_segment (append_price y t p yps).
Proof.
  intros H. unfold append_price. apply map_Forall_insert_2; [|exact H].
  assert (Forall (fun s => is_Some (default new_segments (yps !! y) !! s)) segment_names)
    as Hold.
  { destruct (yps !! y) as [segments|] eqn:E; cbn.
    - exact (H y segments E).
    - exact new_segments_complete. }
  eapply Forall_impl; [exact Hold|]. intros s Hs. cbn beta in *.
  destruct (decide (t = s)) as [->|Hne].
  - rewrite lookup_insert_eq. eauto.
  - now rewrite lookup_insert_ne.
Qed.

Lemma segment_record_complete (record : json)
    (yps yps' : gmap string (gmap string (list Q))) :
  every_segment yps -> segment_record record yps = Ok yps' -> every_segment yps'.
Proof.
  intros H. unfold segment_record.
  destruct record as [| | | | |r]; try discriminate.
  destruct (negb (truthy _)); [now intros [= <-]|].
  destruct (slice4 _) as [year|]; cbn [rbind]; [|discriminate].
  destruct (default JNull (r !! "price")) as [|b|q|s|l|m] eqn:E;
    [now intros [= <-]|..];
    (destruct (as_number _) as [p|]; [|discriminate]);
    (destruct (tier_of p); [|now intros [= <-]]);
    (destruct year; try discriminate);
    intros [= <-]; now apply append_price_complete.
Qed.

Lemma foldM_invariant {A B} (P : A -> Prop) (f : B -> A -> result A) (l : list B) (a a' : A) :
  (forall x b b', P b -> f x b = Ok b' -> P b') ->
  P a -> foldM f l a = Ok a' -> P a'.
Proof.
  intros Hf. revert a. induction l as [|x l IH]; intros a Ha; cbn.
  - now intros [= <-].
  - destruct (f x a) as [b|] eqn:E; cbn; [|discriminate].
    apply IH. eapply Hf; eassumption.
Qed.

Lemma segment_records_complete (records : list json)
    (yps : gmap string (gmap string (list Q))) :
  segment_records records = Ok yps -> every_segment yps.
Proof.
  apply (foldM_invariant every_segment).
  - intros r b b' Hb. now apply segment_record_complete.
  - apply map_Forall_empty.
Qed.

Lemma summarize_complete (yps : gmap string (gmap string (list Q))) :
  every_segment yps -> every_segment (summarize yps).
Proof.
  intros H y segments Hy. unfold summarize in Hy.
  apply lookup_fmap_Some in Hy as (segs & <- & Hy).
  eapply Forall_impl; [exact (H y segs Hy)|].
  intros s [l Hl]. cbn beta. rewrite lookup_fmap, Hl. cbn. eauto.
Qed.


(* ------------------------------------------------------------------ *)
(** * What the statistics are *)

Local Open Scope Q_scope.

Lemma list_max_fold (l : list Q) (m : Q) :
  let r := foldl (fun m y => if Qltb m y then y else m) m l in
  (r = m \/ In r l) /\ m <= r /\ forall x, In x l -> x <= r.
Proof.
  revert m. induction l as [|y l IH]; intros m; cbn.
  - split; [auto|]. split; [lra|tauto].
  - destruct (Qltb m y) eqn:E.
    + apply Qltb_lt in E. destruct (IH y) as (H1 & H2 & H3).
      split; [destruct H1; auto|]. split; [lra|].
      intros x [<-|Hx]; [assumption|auto].
    + apply Qltb_ge in E. destruct (IH m) as (H1 & H2 & H3).
      split; [destruct H1; auto|]. split; [assumption|].
      intros x [<-|Hx]; [lra|auto].
Qed.

(** The maximum is a sample, and no sample is above it. *)
Lemma list_max_spec (l : list Q) :
  l <> [] -> In (list_max l) l /\ forall x, In x l -> x <= list_max l.
Proof.
  destruct l as [|x0 l]; [contradiction|]. intros _.
  destruct (list_max_fold l x0) as (H1 & H2 & H3). cbn zeta in *.
  unfold list_max. split.
  - destruct H1 as [H1|H1]; [left; symmetry; exact H1|right; exact H1].
  - intros x [<-|Hx]; [exact H2|auto].
Qed.



(** The mean times the number of samples is their sum. *)
Lemma mean_spec (l : list Q) :
  l <> [] -> mean l * inject_Z (Z.of_nat (length l)) == Qsum l.
Proof.
  intros H. unfold mean. rewrite Qred_correct. field.
  destruct l; [contradiction|]. cbn [length].
  unfold Qeq, inject_Z. cbn. lia.
Qed.

Local Close Scope Q_scope.

Local Open Scope Q_scope.

(** The integer chosen by [sqrt_round2] is nearest to the square root:
    with [w = a / b], [4 a] lies between [(2 n - 1)^2 b] and
    [(2 n + 1)^2 b]. *)
Lemma sqrt_nearest (a b : Z) :
  (0 < a)%Z -> (0 < b)%Z ->
  let f := Z.sqrt (a / b) in
  let n := match (4 * a ?= (2 * f + 1) * (2 * f + 1) * b)%Z with
           | Lt => f
           | Gt => (f + 1)%Z
           | Eq => if Z.even f then f else (f + 1)%Z
           end in
  (0 <= n)%Z /\
  (4 * a <= (2 * n + 1) * (2 * n + 1) * b)%Z /\
  (n = 0%Z \/ ((2 * n - 1) * (2 * n - 1) * b <= 4 * a)%Z).
Proof.
  intros Ha Hb f n.
  assert (0 <= a / b)%Z as Hq by (apply Z.div_pos; lia).
  pose proof (Z.sqrt_spec (a / b) Hq) as [Hlo Hhi]. fold f in Hlo, Hhi.
  pose proof (Z.sqrt_nonneg (a / b)) as Hf. fold f in Hf.
  pose proof (Z.mul_div_le a b Hb) as Hd1.
  pose proof (Z.mul_succ_div_gt a b Hb) as Hd2.
  assert (f * f * b <= a)%Z as H1 by nia.
  assert (a < (f + 1) * (f + 1) * b)%Z as H2 by nia.
  subst n.
  destruct (4 * a ?= (2 * f + 1) * (2 * f + 1) * b)%Z eqn:E.
  - apply Z.compare_eq_iff in E.
    destruct (Z.even f).
    + split; [lia|]. split; [rewrite E; apply Z.le_refl|].
      destruct (Z.eq_dec f 0%Z) as [->|]; [left; reflexivity|right].
      assert ((2 * f - 1) * (2 * f - 1) <= 4 * (f * f))%Z as Hsq by nia.
      pose proof (Z.mul_le_mono_nonneg_r _ _ b (Z.lt_le_incl _ _ Hb) Hsq). lia.
    + split; [lia|]. split; [nia|]. right.
      replace (2 * (f + 1) - 1)%Z with (2 * f + 1)%Z by lia. lia.
  - apply Z.compare_lt_iff in E. split; [lia|].
    split; [apply Z.lt_le_incl; exact E|].
    destruct (Z.eq_dec f 0%Z) as [->|]; [left; reflexivity|right].
    assert ((2 * f - 1) * (2 * f - 1) <= 4 * (f * f))%Z as Hsq by nia.
    pose proof (Z.mul_le_mono_nonneg_r _ _ b (Z.lt_le_incl _ _ Hb) Hsq). lia.
  - apply Z.compare_gt_iff in E. split; [lia|]. split; [nia|]. right.
    replace (2 * (f + 1) - 1)%Z with (2 * f + 1)%Z by lia. lia.
Qed.

(** [sqrt_round2 v] is a number of hundredths [s], not negative, and the
    square root of [v] is at most half a hundredth away from it:
    [v <= (s + 1/200)^2], and [(s - 1/200)^2 <= v] unless [s] is [0]. *)
Lemma sqrt_round2_near (v : Q) :
  0 <= v ->
  exists n : Z,
    (0 <= n)%Z /\ sqrt_round2 v == n # 100 /\
    v <= ((n # 100) + (1 # 200)) * ((n # 100) + (1 # 200)) /\
    (n = 0%Z \/ ((n # 100) - (1 # 200)) * ((n # 100) - (1 # 200)) <= v).
Proof.
  intros Hv. unfold sqrt_round2.
  set (w := v * 10000).
  assert (v == w / 10000) as Hw by (unfold w; field).
  assert (0 <= w) as Hw0 by (unfold w; lra).
  destruct w as [a b]. cbn [Qnum Qden].
  assert (0 <= a)%Z as Ha0 by (unfold Qle in Hw0; cbn in Hw0; lia).
  destruct (a <=? 0)%Z eqn:E.
  - apply Z.leb_le in E. assert (a = 0%Z) as -> by lia.
    exists 0%Z. split; [lia|]. split; [reflexivity|].
    assert (v == 0) as Hv0 by (rewrite Hw; reflexivity).
    split; [rewrite Hv0; unfold Qle; cbn; lia|left; reflexivity].
  - apply Z.leb_gt in E.
    destruct (sqrt_nearest a (Zpos b) E (Pos2Z.is_pos b)) as (Hn & Hup & Hlow).
    cbv zeta in Hn, Hup, Hlow.
    set (n := match (4 * a ?= _)%Z with Lt => _ | Eq => _ | Gt => _ end) in *.
    exists n. split; [exact Hn|]. split; [apply Qred_correct|].
    split.
    + rewrite Hw. unfold Qle, Qdiv, Qmult, Qplus, Qinv. cbn.
      rewrite ?Pos2Z.inj_mul. nia.
    + destruct Hlow as [->|Hlow]; [left; reflexivity|right].
      rewrite Hw. unfold Qle, Qdiv, Qmult, Qminus, Qplus, Qopp, Qinv. cbn.
      rewrite ?Pos2Z.inj_mul. nia.
Qed.

Local Close Scope Q_scope.

Local Open Scope Q_scope.

Lemma Qsum_nonneg (l : list Q) : Forall (fun x => 0 <= x) l -> 0 <= Qsum l.
Proof.
  induction 1 as [|x l Hx _ IH]; cbn; [lra|]. unfold Qsum in IH. lra.
Qed.

Lemma Qsquare_nonneg (d : Q) : 0 <= d * d.
Proof.
  destruct (Qlt_le_dec d 0) as [H|H].
  - assert (d * d == (- d) * (- d)) as -> by ring.
    apply Qmult_le_0_compat; lra.
  - now apply Qmult_le_0_compat.
Qed.

Lemma variance_nonneg (l : list Q) : 0 <= variance l.
Proof.
  unfold variance. rewrite Qred_correct. unfold Qdiv.
  apply Qmult_le_0_compat.
  - apply Qsum_nonneg. apply Forall_forall. intros y Hy.
    apply list_elem_of_In, in_map_iff in Hy as (x & <- & _).
    apply Qsquare_nonneg.
  - apply Qinv_le_0_compat. unfold Qle, inject_Z. cbn. lia.
Qed.

(** The deviation [calculate_statistics] reports for two samples or more
    is a number of hundredths at most half a hundredth away from the square
    root of the sample variance. *)
Lemma stdev_round2_near (l : list Q) :
  exists n : Z,
    (0 <= n)%Z /\ stdev_round2 l == n # 100 /\
    variance l <= ((n # 100) + (1 # 200)) * ((n # 100) + (1 # 200)) /\
    (n = 0%Z \/ ((n # 100) - (1 # 200)) * ((n # 100) - (1 # 200)) <= variance l).
Proof.
  apply sqrt_round2_near, variance_nonneg.
Qed.

Local Close Scope Q_scope.


(* ------------------------------------------------------------------ *)
(** * The pipeline on two records *)

(** Two records with the price "$150", fetched in 2023 and in 2022: the
    cleaning keeps both, with the price 150; the analysis of the cleaned
    list records the rate 0 for 2023 in the low tier, null in the two other
    tiers, and writes no sentence. *)
Example two_years_same_price :
  clean_data parse_iso [[Parsed (JObj widget23); Parsed (JObj gadget22)]]
  = Ok [normalize parse_iso widget23; normalize parse_iso gadget22] /\
  normalize parse_iso widget23 !! "price" = Some (JNum 150) /\
  exists out,
    analyze_data [JObj (normalize parse_iso widget23);
                  JObj (normalize parse_iso gadget22)] = Ok out /\
    out_inflation_analysis out = [] /\
    out_inflation_summary out
    = [("2023", <["high" := None]> (<["mid" := None]> (<["low" := Some 0%Q]> ∅)))].
Proof.
  split; [vm_compute; reflexivity|]. split; [vm_compute; reflexivity|].
  destruct (analyze_data [JObj (normalize parse_iso widget23);
                          JObj (normalize parse_iso gadget22)]) as [out|] eqn:E;
    [|vm_compute in E; discriminate].
  exists out. split; [reflexivity|].
  vm_compute in E. injection E as <-. split; vm_compute; reflexivity.
Qed.

(* ------------------------------------------------------------------ *)
(** * Further properties of the cleaning stage *)

Section CleaningOrder.
Variable parser_parse : json -> option string.

Lemma clean_line_kept (l : line) (d d' : list (gmap string json)) :
  clean_line parser_parse l d = Ok d' ->
  line_ok parser_parse l /\
  d' = (d ++ match kept parser_parse l with Some r => [r] | None => [] end)%list.
Proof.
  destruct l as [|v].
  - intros [= <-]. split; [exact I|]. cbn. now rewrite app_nil_r.
  - destruct v as [| | | | |item]; try discriminate.
    rewrite clean_line_object. cbn [kept line_ok].
    destruct (keep (normalize parser_parse item)) as [[]|]; try discriminate;
      intros [= <-]; (split; [eauto|]); [reflexivity|now rewrite app_nil_r].
Qed.

Lemma clean_line_ok (l : line) (d : list (gmap string json)) :
  line_ok parser_parse l ->
  clean_line parser_parse l d
  = Ok (d ++ match kept parser_parse l with Some r => [r] | None => [] end)%list.
Proof.
  destruct l as [|v].
  - intros _. cbn. now rewrite app_nil_r.
  - destruct v as [| | | | |item]; try contradiction.
    intros [b Hb]. rewrite clean_line_object. cbn [kept]. rewrite Hb.
    destruct b; [reflexivity|now rewrite app_nil_r].
Qed.

Lemma omap_cons_kept (l : line) (ls : list line) :
  omap (kept parser_parse) (l :: ls)
  = (match kept parser_parse l with Some r => [r] | None => [] end
     ++ omap (kept parser_parse) ls)%list.
Proof.
  cbn. destruct (kept parser_parse l); reflexivity.
Qed.

Lemma clean_file_iff (ls : list line) (d out : list (gmap string json)) :
  clean_file parser_parse ls d = Ok out <->
  Forall (line_ok parser_parse) ls /\
  out = (d ++ omap (kept parser_parse) ls)%list.
Proof.
  revert d. induction ls as [|l ls IH]; intros d.
  - cbn. rewrite app_nil_r. split.
    + intros [= <-]. split; [constructor|reflexivity].
    + intros [_ ->]. reflexivity.
  - cbn [clean_file]. rewrite omap_cons_kept. split.
    + destruct (clean_line parser_parse l d) as [d1|] eqn:E; cbn [rbind];
        [|discriminate].
      apply clean_line_kept in E as [Hl ->]. intros H.
      apply IH in H as [Hls ->]. split; [now constructor|].
      now rewrite <- app_assoc.
    + intros [Hall ->]. apply Forall_cons in Hall as [Hl Hls].
      rewrite (clean_line_ok l d Hl). cbn [rbind].
      apply IH. split; [assumption|]. now rewrite <- app_assoc.
Qed.

Lemma clean_files_iff (files : list (list line)) (d out : list (gmap string json)) :
  clean_files parser_parse files d = Ok out <->
  Forall (line_ok parser_parse) (concat files) /\
  out = (d ++ omap (kept parser_parse) (concat files))%list.
Proof.
  revert d. induction files as [|f files IH]; intros d.
  - cbn. rewrite app_nil_r. split.
    + intros [= <-]. split; [constructor|reflexivity].
    + intros [_ ->]. reflexivity.
  - cbn [clean_files concat]. rewrite Forall_app, omap_app. split.
    + destruct (clean_file parser_parse f d) as [d1|] eqn:E; cbn [rbind];
        [|discriminate].
      apply clean_file_iff in E as [Hf ->]. intros H.
      apply IH in H as [Hfs ->]. split; [now split|].
      now rewrite <- app_assoc.
    + intros [[Hf Hfs] ->].
      assert (clean_file parser_parse f d
              = Ok (d ++ omap (kept parser_parse) f)%list) as ->
        by now apply clean_file_iff.
      cbn [rbind]. apply IH. split; [assumption|]. now rewrite <- app_assoc.
Qed.

End CleaningOrder.



Lemma keep_true_inv (r : gmap string json) :
  keep r = Ok true ->
  exists title,
    r !! "title" = Some (JStr title) /\
    ~ In title error_titles /\ ~ In (lower title) promo_titles /\
    price_ok r = true.
Proof.
  unfold keep. destruct (r !! "title") as [v|]; [|discriminate].
  destruct (json_in v error_titles) eqn:E1; [discriminate|].
  destruct v as [| | |t| |]; try discriminate.
  destruct (str_in (lower t) promo_titles) eqn:E2; [discriminate|].
  intros [= H]. exists t. split; [reflexivity|].
  change (str_in t error_titles = false) in E1.
  split; [|split; [|exact H]].
  - intros Hin. apply str_in_In in Hin. congruence.
  - intros Hin. apply str_in_In in Hin. congruence.
Qed.

Lemma as_number_at_least_99 (v : json) (x : Q) :
  as_number v = Some x -> (99 <= x)%Q -> v = JNum x.
Proof.
  destruct v as [|[]| | | |]; cbn; try discriminate.
  - intros [= <-] H. exfalso. revert H. unfold Qle. cbn. lia.
  - intros [= <-] H. exfalso. revert H. unfold Qle. cbn. lia.
  - now intros [= ->].
Qed.

(** X2. Every record of a cleaned list that is written has a string title
    that is none of the error titles and whose lowercase is none of the
    promotional titles, and its price is either absent or a number of at
    least 99 that is none of the year-like values: never null, a string or
    a boolean. *)
Theorem cleaned_records_invariant (parser_parse : json -> option string)
    (files : list (list line)) (out : list (gmap string json)) :
  clean_data parser_parse files = Ok out ->
  forall r, In r out ->
    exists title,
      r !! "title" = Some (JStr title) /\
      ~ In title error_titles /\ ~ In (lower title) promo_titles /\
      (r !! "price" = None \/
       exists x, r !! "price" = Some (JNum x) /\ (99 <= x)%Q /\
                 forall y, In y year_like -> ~ (x == y)%Q).
Proof.
  intros Hrun r Hin.
  destruct (clean_files_inv parser_parse files [] out r Hrun Hin)
    as [[]|(f & item & _ & _ & _ & Hk)].
  destruct (keep_true_inv r Hk) as (title & Ht & H1 & H2 & Hp).
  exists title. repeat (split; [assumption|]).
  apply price_ok_spec in Hp as [Hp|(v & x & Hv & Hx & Hle & Hy)]; [now left|].
  right. exists x. rewrite Hv, (as_number_at_least_99 v x Hx Hle). auto.
Qed.

Lemma cleaned_records_invariant_witness :
  exists x, normalize parse_iso widget !! "price" = Some (JNum x) /\ (99 <= x)%Q.
Proof.
  destruct (cleaned_records_invariant parse_iso
              [[Parsed (JObj unpriced); Parsed (JObj widget)]]
              [normalize parse_iso widget])
    with (r := normalize parse_iso widget)
    as (title & _ & _ & _ & [Hp|(x & Hx & Hle & _)]).
  - reflexivity.
  - left. reflexivity.
  - discriminate Hp.
  - exists x. split; assumption.
Defined.

(** X3. An object whose title is there but is not a string (null, a
    number, a boolean, a list, an object) raises [AttributeError] at the
    lowercasing, which no handler catches: an input that holds such a line
    makes [clean_data] end in an exception before the list is written, as
    does a line that is valid JSON but no object, with [TypeError]. *)
Theorem nonstring_title_aborts (parser_parse : json -> option string)
    (files : list (list line)) (f : list line) (v : json) :
  In f files -> In (Parsed v) f ->
  (forall item, v = JObj item ->
     exists t, item !! "title" = Some t /\ forall s, t <> JStr s) ->
  (exists e, clean_data parser_parse files = Raise e) /\
  (forall d,
     clean_line parser_parse (Parsed v) d
     = Raise (match v with JObj _ => AttributeError | _ => TypeError end)).
Proof.
  intros Hf Hl Hv.
  assert (forall d,
            clean_line parser_parse (Parsed v) d
            = Raise (match v with JObj _ => AttributeError | _ => TypeError end))
    as Hline.
  { intros d. destruct v as [| | | | |item]; try reflexivity.
    destruct (Hv item eq_refl) as (t & Ht & Hs).
    rewrite clean_line_object, (keep_title_not_string _ t); auto.
    now rewrite normalize_title. }
  split; [|exact Hline].
  apply (clean_files_raises parser_parse files f (Parsed v)); eauto.
Qed.

Lemma nonstring_title_aborts_witness :
  exists e,
    clean_data parse_iso
      [[Parsed (JObj widget); Parsed (JObj (<["title" := JNull]> widget))]]
    = Raise e.
Proof.
  eapply (nonstring_title_aborts parse_iso _ _ (JObj (<["title" := JNull]> widget))).
  - left. reflexivity.
  - right. left. reflexivity.
  - intros item [= <-]. exists JNull. split; [reflexivity|discriminate].
Defined.

(** X4. A record whose title is "No Title Found", the title the
    extractor gives a page where no title strategy yields text, is never
    retained, whatever its price: its line leaves the cleaned list as it
    was. *)
Theorem sentinel_title_never_cleaned (parser_parse : json -> option string)
    (d : soup) (product_data : gmap string json)
    (filtered_data : list (gmap string json)) :
  title_of d = "" ->
  product_data !! "title" = extract_product_data d !! "title" ->
  product_data !! "title" = Some (JStr "No Title Found") /\
  clean_line parser_parse (Parsed (JObj product_data)) filtered_data
  = Ok filtered_data.
Proof.
  intros Ht Hpd. rewrite extract_title, Ht in Hpd. cbn in Hpd.
  split; [exact Hpd|].
  rewrite clean_line_object. unfold keep. rewrite normalize_title, Hpd.
  reflexivity.
Qed.

Lemma sentinel_title_never_cleaned_witness :
  clean_line parse_iso (Parsed (JObj (extract_product_data blank_first_page))) []
  = Ok [].
Proof.
  apply (sentinel_title_never_cleaned parse_iso blank_first_page); reflexivity.
Defined.


(* ------------------------------------------------------------------ *)
(** * Further properties of the extraction stage *)

Section RowFacts.
Variable get_object : string -> json -> Z -> Z -> result (list warc_record).
Variable BeautifulSoup : string -> soup.
Variable to_datetime : json -> result string.

Lemma attach_fetch_time_inv (row pd pd' : gmap string json) :
  attach_fetch_time to_datetime row pd = Ok pd' ->
  (forall k, k <> "fetch_time" -> pd' !! k = pd !! k) /\
  (pd' !! "fetch_time" = pd !! "fetch_time" \/
   pd' !! "fetch_time" = Some JNull \/
   exists iso, pd' !! "fetch_time" = Some (JStr iso)).
Proof.
  unfold attach_fetch_time.
  destruct (row !! "fetch_time") as [ft|]; [|intros [= <-]; auto].
  destruct (truthy ft); [|intros [= <-]; auto].
  destruct (to_datetime ft) as [iso|[]]; try discriminate; intros [= <-].
  - split; [intros k Hk; now rewrite lookup_insert_ne|].
    right. right. exists iso. apply lookup_insert_eq.
  - split; [intros k Hk; now rewrite lookup_insert_ne|].
    right. left. apply lookup_insert_eq.
Qed.

Lemma process_record_appended (row pd : gmap string json) :
  process_record get_object BeautifulSoup to_datetime row = Appended pd ->
  exists html url,
    extract_data_from_warc get_object row = Ok (Some html) /\ html <> "" /\
    row !! "url" = Some url /\ pd !! "url" = Some url /\
    pd !! "title" = extract_product_data (BeautifulSoup html) !! "title" /\
    pd !! "price" = extract_product_data (BeautifulSoup html) !! "price" /\
    (pd !! "fetch_time" = None \/ pd !! "fetch_time" = Some JNull \/
     exists iso, pd !! "fetch_time" = Some (JStr iso)).
Proof.
  unfold process_record.
  destruct (extract_data_from_warc get_object row) as [[html|]|]; try discriminate.
  destruct (html =? "")%string eqn:Eh; [discriminate|].
  apply String.eqb_neq in Eh.
  destruct (row !! "url") as [url|]; [|discriminate].
  destruct (attach_fetch_time to_datetime row _) as [pd'|] eqn:E; [|discriminate].
  destruct (any_values pd'); [|discriminate]. intros [= <-].
  apply attach_fetch_time_inv in E as [Hother Hft].
  exists html, url. split; [reflexivity|]. split; [assumption|].
  split; [reflexivity|].
  rewrite !Hother by done.
  split; [apply lookup_insert_eq|].
  split; [now rewrite lookup_insert_ne|]. split; [now rewrite lookup_insert_ne|].
  destruct Hft as [Hft|Hft]; [|right; exact Hft].
  left. rewrite Hft. reflexivity.
Qed.

Lemma process_rows_elem (rows : list (gmap string json)) (pd : gmap string json) :
  In pd (process_rows get_object BeautifulSoup to_datetime rows) ->
  exists row, In row rows /\
    process_record get_object BeautifulSoup to_datetime row = Appended pd.
Proof.
  induction rows as [|r rows IH]; cbn; [tauto|].
  destruct (process_record get_object BeautifulSoup to_datetime r) eqn:E;
    try (intros H; destruct (IH H) as (row & ? & ?); eauto).
  intros [<-|H]; [eauto|]. destruct (IH H) as (row & ? & ?); eauto.
Qed.

(** X5. Every record a batch writes out comes from a row whose archive
    record resolved to a page that is not empty; it holds a title and a
    price that are strings and not empty, the url of the row, and a fetch
    time that is absent, null or a string. *)
Theorem extracted_records_invariant (rows : list (gmap string json))
    (pd : gmap string json) :
  In pd (process_rows get_object BeautifulSoup to_datetime rows) ->
  exists row html title price url,
    In row rows /\
    extract_data_from_warc get_object row = Ok (Some html) /\ html <> "" /\
    pd !! "title" = Some (JStr title) /\ title <> "" /\
    pd !! "price" = Some (JStr price) /\ price <> "" /\
    row !! "url" = Some url /\ pd !! "url" = Some url /\
    (pd !! "fetch_time" = None \/ pd !! "fetch_time" = Some JNull \/
     exists iso, pd !! "fetch_time" = Some (JStr iso)).
Proof.
  intros Hin. apply process_rows_elem in Hin as (row & Hrow & Hrec).
  apply process_record_appended in Hrec
    as (html & url & Hw & Hh & Hu & Hpu & Ht & Hp & Hft).
  exists row, html, (or_default (title_of (BeautifulSoup html)) "No Title Found"),
    (or_default (price_of (BeautifulSoup html)) "No Price Found"), url.
  split; [assumption|]. split; [assumption|]. split; [assumption|].
  split; [now rewrite Ht|]. split; [now apply or_default_nonempty|].
  split; [now rewrite Hp|]. split; [now apply or_default_nonempty|].
  auto.
Qed.

Lemma process_rows_app (rows1 rows2 : list (gmap string json)) :
  process_rows get_object BeautifulSoup to_datetime (rows1 ++ rows2)
  = (process_rows get_object BeautifulSoup to_datetime rows1
     ++ process_rows get_object BeautifulSoup to_datetime rows2)%list.
Proof.
  induction rows1 as [|r rows1 IH]; [reflexivity|]. cbn.
  destruct (process_record get_object BeautifulSoup to_datetime r);
    rewrite IH; reflexivity.
Qed.

(** X6. The rows of a batch do not affect one another: a row that is not
    appended, because its archive read fails or finds no response, a field
    of the row is missing or no integer, or the conversion of its fetch
    time raises something else than [ValueError], is skipped, and the batch
    gives what it gives without that row. *)
Theorem failed_row_is_skipped (rows1 rows2 : list (gmap string json))
    (row : gmap string json) :
  (forall pd, process_record get_object BeautifulSoup to_datetime row <> Appended pd) ->
  process_rows get_object BeautifulSoup to_datetime (rows1 ++ row :: rows2)
  = process_rows get_object BeautifulSoup to_datetime (rows1 ++ rows2).
Proof.
  intros H. rewrite !process_rows_app. f_equal. cbn.
  destruct (process_record get_object BeautifulSoup to_datetime row) eqn:E;
    try reflexivity.
  now destruct (H product_data).
Qed.
End RowFacts.

Lemma extracted_records_invariant_witness :
  exists pd title,
    In pd (process_rows one_response (fun _ => no_price_page) any_string
             [∅; widget_row]) /\
    pd !! "title" = Some (JStr title) /\ title <> "".
Proof.
  assert (exists pd,
            process_rows one_response (fun _ => no_price_page) any_string
              [∅; widget_row] = [pd]) as [pd Hpd].
  { cbn [process_rows].
    assert (process_record one_response (fun _ => no_price_page) any_string ∅
            = RowError KeyError) as -> by reflexivity.
    destruct resolved_row_is_appended as (pd & -> & _). eauto. }
  assert (In pd (process_rows one_response (fun _ => no_price_page) any_string
                   [∅; widget_row])) as Hin by (rewrite Hpd; now left).
  destruct (extracted_records_invariant one_response (fun _ => no_price_page)
              any_string _ pd Hin)
    as (row & html & title & price & url & _ & _ & _ & Ht & Hne & _).
  exists pd, title. auto.
Defined.

Lemma failed_row_is_skipped_witness :
  process_rows one_response (fun _ => no_price_page) any_string [∅; widget_row]
  = process_rows one_response (fun _ => no_price_page) any_string [widget_row].
Proof.
  apply (failed_row_is_skipped one_response (fun _ => no_price_page) any_string
           [] [widget_row] ∅).
  intros pd. discriminate.
Defined.


(* ------------------------------------------------------------------ *)
(** * From the extraction to the cleaning *)

Lemma keep_string_title (item : gmap string json) (t : string) :
  item !! "title" = Some (JStr t) -> exists b, keep item = Ok b.
Proof.
  intros H. unfold keep. rewrite H. cbn [json_in].
  destruct (str_in t error_titles); [eauto|].
  destruct (str_in (lower t) promo_titles); eauto.
Qed.

(** X7. The cleaning stage raises nothing on what the extraction stage
    writes: on the lines of any batches of rows, read back as the objects
    that were written, [clean_data] goes through to its output. *)
Theorem extraction_output_cleans
    (get_object : string -> json -> Z -> Z -> result (list warc_record))
    (BeautifulSoup : string -> soup) (to_datetime : json -> result string)
    (parser_parse : json -> option string)
    (batches : list (list (gmap string json))) :
  exists out,
    clean_data parser_parse
      (map (fun rows => as_lines (process_rows get_object BeautifulSoup to_datetime rows))
           batches)
    = Ok out.
Proof.
  eexists. unfold clean_data. apply clean_files_iff. split; [|reflexivity].
  apply Forall_forall. intros l Hl.
  apply list_elem_of_In, in_concat in Hl as (f & Hf & Hl).
  apply in_map_iff in Hf as (rows & <- & _).
  apply in_map_iff in Hl as (pd & <- & Hpd).
  apply process_rows_elem in Hpd as (row & _ & Hrec).
  apply process_record_appended in Hrec as (html & url & _ & _ & _ & _ & Ht & _).
  cbn [line_ok]. apply (keep_string_title _ (or_default (title_of (BeautifulSoup html)) "No Title Found")).
  now rewrite normalize_title, Ht.
Qed.


(* ------------------------------------------------------------------ *)
(** * The price found by the regular expression *)

Lemma digit_not_space (c : ascii) : is_digit c = true -> is_space c = false.
Proof.
  destruct c as [[] [] [] [] [] [] [] []]; cbv; congruence.
Qed.

Lemma digit_not_sign (c : ascii) (r : string) :
  is_digit c = true -> sign_of (String c r) = (false, String c r).
Proof.
  destruct c as [[] [] [] [] [] [] [] []]; cbv; congruence.
Qed.

Lemma digit_not_special (c : ascii) :
  is_digit c = true ->
  Ascii.eqb "$" c = false /\ Ascii.eqb "," c = false /\ Ascii.eqb "." c = false.
Proof.
  destruct c as [[] [] [] [] [] [] [] []]; cbv; intuition congruence.
Qed.

Lemma digit_val_nonneg (c : ascii) : is_digit c = true -> (0 <= digit_val c)%Z.
Proof.
  destruct c as [[] [] [] [] [] [] [] []]; cbv; congruence.
Qed.

Lemma take_digits_spec (s : string) :
  all_digits (take_digits s).1 = true /\
  s = (take_digits s).1 ++ (take_digits s).2 /\
  match (take_digits s).2 with
  | String c _ => is_digit c = false
  | EmptyString => True
  end.
Proof.
  induction s as [|c s IH]; [cbn; auto|]. cbn [take_digits].
  destruct (is_digit c) eqn:E.
  - destruct (take_digits s) as [ds r]. cbn [fst snd all_digits] in *.
    destruct IH as (H1 & H2 & H3). rewrite E, H1. repeat split; [|exact H3].
    rewrite H2 at 1. reflexivity.
  - cbn [fst snd all_digits]. rewrite E. auto.
Qed.

Lemma digits_rest_digits (ds r : string) (acc : Z) (n : nat) :
  all_digits ds = true ->
  digits_rest (ds ++ r) acc n = digits_rest r (digits_value acc ds) (n + String.length ds)%nat.
Proof.
  revert acc n. induction ds as [|c ds IH]; intros acc n H.
  - cbn. now rewrite Nat.add_0_r.
  - cbn [all_digits] in H. apply andb_true_iff in H as [Hc Hds].
    simpl. rewrite Hc, IH by assumption. f_equal. lia.
Qed.

Lemma digits_value_nonneg (ds : string) (acc : Z) :
  all_digits ds = true -> (0 <= acc)%Z -> (0 <= digits_value acc ds)%Z.
Proof.
  revert acc. induction ds as [|c ds IH]; intros acc H Hacc; cbn [digits_value];
    [assumption|].
  cbn [all_digits] in H. apply andb_true_iff in H as [Hc Hds].
  apply IH; [assumption|]. pose proof (digit_val_nonneg c Hc). lia.
Qed.

Lemma rstrip_no_space (s : string) : no_char is_space s = true -> rstrip s = s.
Proof.
  induction s as [|c s IH]; [reflexivity|]. cbn [no_char rstrip].
  intros H. apply andb_true_iff in H as [Hc Hs]. apply negb_true_iff in Hc.
  rewrite (IH Hs). destruct s; [now rewrite Hc|reflexivity].
Qed.

Lemma strip_no_space (s : string) : no_char is_space s = true -> strip s = s.
Proof.
  intros H. unfold strip.
  assert (lstrip s = s) as ->; [|now apply rstrip_no_space].
  destruct s as [|c s]; [reflexivity|]. cbn [no_char lstrip] in *.
  apply andb_true_iff in H as [Hc _]. apply negb_true_iff in Hc. now rewrite Hc.
Qed.

Lemma remove_char_absent (c : ascii) (s : string) :
  no_char (Ascii.eqb c) s = true -> remove_char c s = s.
Proof.
  induction s as [|d s IH]; [reflexivity|]. cbn [no_char remove_char].
  intros H. apply andb_true_iff in H as [Hd Hs]. apply negb_true_iff in Hd.
  now rewrite Hd, IH.
Qed.

Lemma no_char_app (p : ascii -> bool) (s1 s2 : string) :
  no_char p (s1 ++ s2) = no_char p s1 && no_char p s2.
Proof.
  induction s1 as [|c s1 IH]; [reflexivity|].
  change (String c s1 ++ s2) with (String c (s1 ++ s2)). cbn [no_char].
  now rewrite IH, andb_assoc.
Qed.

Lemma all_digits_no_char (p : ascii -> bool) (ds : string) :
  (forall c, is_digit c = true -> p c = false) ->
  all_digits ds = true -> no_char p ds = true.
Proof.
  intros Hp. induction ds as [|c ds IH]; [reflexivity|]. cbn [all_digits no_char].
  intros H. apply andb_true_iff in H as [Hc Hds].
  now rewrite (Hp c Hc), IH.
Qed.

(** The two shapes of a match of the price pattern. *)
Lemma price_match_shape (s : string) (c : ascii) (r : string) :
  s = String c r -> is_digit c = true ->
  exists ds,
    all_digits ds = true /\ ds <> "" /\
    (price_match_at s = ds \/
     exists a b, is_digit a = true /\ is_digit b = true /\
                 price_match_at s = ds ++ String "." (String a (String b ""))).
Proof.
  intros -> Hc. unfold price_match_at.
  pose proof (take_digits_spec (String c r)) as (H1 & H2 & H3).
  destruct (take_digits (String c r)) as [ds rest] eqn:E. cbn [fst snd] in *.
  exists ds. split; [assumption|]. split.
  - intros ->. cbn in E. rewrite Hc in E. destruct (take_digits r). discriminate.
  - destruct rest as [|d [|a [|b rest]]].
    + left. reflexivity.
    + left. destruct d as [[] [] [] [] [] [] [] []]; reflexivity.
    + left. destruct d as [[] [] [] [] [] [] [] []]; reflexivity.
    + destruct (Ascii.eqb d ".") eqn:Ed.
      * apply Ascii.eqb_eq in Ed as ->.
        destruct (is_digit a && is_digit b) eqn:Eab.
        -- pose proof Eab as Eab'. apply andb_true_iff in Eab' as [Ha Hb].
           right. exists a, b.
           split; [assumption|]. split; [assumption|].
           reflexivity.
        -- left. reflexivity.
      * left. destruct d as [[] [] [] [] [] [] [] []]; try reflexivity.
        discriminate Ed.
Qed.

Lemma string_app_nil_r (s : string) : s ++ "" = s.
Proof.
  induction s as [|c s IH]; [reflexivity|].
  change (String c s ++ "") with (String c (s ++ "")). now rewrite IH.
Qed.

Lemma py_float_digits (ds : string) :
  all_digits ds = true -> ds <> "" ->
  py_float ds = Some (inject_Z (digits_value 0 ds)) /\ isdigit ds = true.
Proof.
  intros H Hne. destruct ds as [|c ds]; [contradiction|].
  split; [|exact H].
  pose proof H as H'. cbn [all_digits] in H'.
  apply andb_true_iff in H' as [Hc Hds].
  unfold py_float.
  rewrite strip_no_space
    by (apply all_digits_no_char; [apply digit_not_space|exact H]).
  rewrite digit_not_sign by assumption.
  unfold mantissa, digitpart. rewrite Hc.
  rewrite <- (string_app_nil_r ds) at 1.
  rewrite digits_rest_digits by assumption.
  cbn [digits_rest exponent digits_value]. unfold scale10.
  cbn [Z.of_nat Z.sub Z.opp Z.leb Z.compare Z.pow Z.pow_pos Pos.iter].
  rewrite Z.sub_0_r. cbn [Z.leb Z.compare Z.pow]. now rewrite Z.mul_1_r.
Qed.

Lemma py_float_fraction (ds : string) (a b : ascii) :
  all_digits ds = true -> ds <> "" -> is_digit a = true -> is_digit b = true ->
  py_float (ds ++ String "." (String a (String b "")))
  = Some (Qred (Qmake (digits_value 0 (ds ++ String a (String b ""))) 100)).
Proof.
  intros H Hne Ha Hb. destruct ds as [|c ds]; [contradiction|].
  pose proof H as H'. cbn [all_digits] in H'.
  apply andb_true_iff in H' as [Hc Hds].
  unfold py_float.
  rewrite strip_no_space.
  2:{ rewrite no_char_app, (all_digits_no_char is_space) by
        (assumption || apply digit_not_space).
      cbn [no_char andb]. rewrite (digit_not_space a Ha), (digit_not_space b Hb).
      reflexivity. }
  change (String c ds ++ String "." (String a (String b "")))
    with (String c (ds ++ String "." (String a (String b "")))).
  rewrite digit_not_sign by assumption.
  unfold mantissa, digitpart. rewrite Hc.
  rewrite digits_rest_digits by assumption.
  assert (forall v n, digits_rest (String "." (String a (String b ""))) v n
                      = (v, n, String "." (String a (String b "")))) as Hdot
    by reflexivity.
  rewrite Hdot. rewrite Ha. cbn [digits_rest]. rewrite Hb.
  cbn [exponent]. unfold scale10.
  replace (0 - Z.of_nat 2)%Z with (-2)%Z by reflexivity.
  cbn [Z.leb Z.compare Z.opp Z.pow Z.pow_pos Pos.iter Z.to_pos Z.mul Pos.mul].
  f_equal. f_equal. f_equal.
  change (digits_value 0 (String c ds ++ String a (String b "")))
    with (digits_value (0 * 10 + digit_val c) (ds ++ String a (String b ""))).
  clear. generalize (0 * 10 + digit_val c)%Z.
  induction ds as [|d ds IH]; intros v; [reflexivity|]. simpl. apply IH.
Qed.


Lemma search_price_Some (text m : string) :
  search_price text = Some m ->
  exists c r, is_digit c = true /\ m = price_match_at (String c r).
Proof.
  induction text as [|c text IH]; [discriminate|]. cbn [search_price].
  destruct (is_digit c) eqn:E; [|exact IH].
  intros [= <-]. eauto.
Qed.

Lemma search_price_None (text : string) :
  search_price text = None <-> has_digit text = false.
Proof.
  induction text as [|c text IH]; [split; reflexivity|].
  cbn [search_price has_digit]. destruct (is_digit c); [split; discriminate|].
  exact IH.
Qed.

Lemma all_digits_app (s1 s2 : string) :
  all_digits (s1 ++ s2) = all_digits s1 && all_digits s2.
Proof.
  induction s1 as [|c s1 IH]; [reflexivity|].
  change (String c s1 ++ s2) with (String c (s1 ++ s2)). cbn [all_digits].
  now rewrite IH, andb_assoc.
Qed.

Lemma digits_head (ds rest : string) :
  all_digits ds = true -> ds <> "" ->
  exists c r, ds ++ rest = String c r /\ is_digit c = true.
Proof.
  intros H Hne. destruct ds as [|c ds]; [contradiction|].
  cbn [all_digits] in H. apply andb_true_iff in H as [Hc _].
  exists c, (ds ++ rest). split; [reflexivity|assumption].
Qed.

Lemma price_match_head (text m : string) :
  search_price text = Some m -> exists c r, m = String c r /\ is_digit c = true.
Proof.
  intros H. apply search_price_Some in H as (c & r & Hc & ->).
  destruct (price_match_shape (String c r) c r eq_refl Hc)
    as (ds & Hds & Hne & [->|(a & b & _ & _ & ->)]).
  - rewrite <- (string_app_nil_r ds). now apply digits_head.
  - now apply digits_head.
Qed.

(** X8. A price found by the regular expression over the visible text is
    always turned into a number by the cleaning stage, one that is not
    negative: the guard lets it through and the parse cannot fail. *)
Theorem regex_price_becomes_number (text m : string) (item : gmap string json) :
  search_price text = Some m ->
  exists x,
    (0 <= x)%Q /\ py_float m = Some x /\
    normalize_price (<["price" := JStr m]> item) !! "price" = Some (JNum x).
Proof.
  intros H. apply search_price_Some in H as (c & r & Hc & ->).
  destruct (price_match_shape (String c r) c r eq_refl Hc)
    as (ds & Hds & Hne & Hshape).
  set (m := price_match_at (String c r)) in *.
  assert (exists x, (0 <= x)%Q /\ py_float m = Some x /\
                    (isdigit m || contains_char "." m) = true /\
                    no_char is_space m = true /\
                    no_char (Ascii.eqb "$") m = true /\
                    no_char (Ascii.eqb ",") m = true)
    as (x & Hx & Hf & Hg & Hsp & Hd & Hco).
  { assert (forall p, (forall c, is_digit c = true -> p c = false) ->
                      no_char p ds = true) as Hno
      by (intros p Hp; now apply all_digits_no_char).
    destruct Hshape as [->|(a & b & Ha & Hb & ->)].
    - destruct (py_float_digits ds Hds Hne) as [Hf Hd].
      exists (inject_Z (digits_value 0 ds)).
      split; [|split; [exact Hf|split; [now rewrite Hd|]]].
      + change 0%Q with (inject_Z 0). rewrite <- Zle_Qle.
        now apply digits_value_nonneg.
      + repeat split; apply Hno; intros d Hd';
          [now apply digit_not_space|apply (digit_not_special d Hd')..].
    - exists (Qred (Qmake (digits_value 0 (ds ++ String a (String b ""))) 100)).
      split; [|split; [now apply py_float_fraction|split]].
      + rewrite Qred_correct. unfold Qle. cbn.
        assert (0 <= digits_value 0 (ds ++ String a (String b "")))%Z; [|lia].
        apply digits_value_nonneg; [|lia].
        rewrite all_digits_app, Hds. cbn [all_digits]. now rewrite Ha, Hb.
      + apply orb_true_iff. right.
        clear. induction ds as [|d ds IH]; [reflexivity|].
        change (String d ds ++ String "." (String a (String b "")))
          with (String d (ds ++ String "." (String a (String b "")))).
        cbn [contains_char]. rewrite IH. apply orb_true_r.
      + rewrite !no_char_app, !Hno;
          try (intros d Hd'; apply (digit_not_special d Hd'));
          try apply digit_not_space.
        cbn [no_char andb].
        rewrite (digit_not_space a Ha), (digit_not_space b Hb).
        destruct (digit_not_special a Ha) as (-> & -> & _).
        destruct (digit_not_special b Hb) as (-> & -> & _).
        repeat split. }
  exists x. split; [exact Hx|]. split; [exact Hf|].
  rewrite (normalize_price_price _ m) by apply lookup_insert_eq.
  cbv zeta. rewrite (remove_char_absent "$" m Hd), (remove_char_absent "," m Hco),
    (strip_no_space m Hsp), Hg, Hf. reflexivity.
Qed.

Lemma regex_price_becomes_number_witness :
  exists x, normalize_price (<["price" := JStr "12.34"]> ∅) !! "price" = Some (JNum x).
Proof.
  destruct (regex_price_becomes_number "only 12.345 left" "12.34" ∅)
    as (x & _ & _ & H); [reflexivity|].
  exists x. exact H.
Defined.

Lemma price_of_first_present (d : soup) :
  price_of d
  = match first_present (price_chain d) with
    | Some t => strip t
    | None => default "" (search_price (get_text d))
    end.
Proof.
  unfold price_of, price_chain. cbn [first_present].
  destruct (sel_priceblock d); [reflexivity|].
  destruct (find_price_whole d); [reflexivity|].
  destruct (find_a_price d); [reflexivity|].
  destruct (find_buybox d); [reflexivity|].
  destruct (search_price (get_text d)); reflexivity.
Qed.

(** X9. The price of an extracted record is "No Price Found" exactly in
    two cases: the first price element that is present has a text that is
    blank (or is that very string), or no price element is present and the
    visible text holds no digit. *)
Theorem price_sentinel_iff (d : soup) :
  extract_product_data d !! "price" = Some (JStr "No Price Found") <->
  (exists t, first_present (price_chain d) = Some t /\
             (strip t = "" \/ strip t = "No Price Found")) \/
  (first_present (price_chain d) = None /\ has_digit (get_text d) = false).
Proof.
  rewrite extract_price, price_of_first_present. unfold or_default.
  destruct (first_present (price_chain d)) as [t|].
  - split.
    + intros [= H]. left. exists t. split; [reflexivity|].
      destruct (strip t =? "")%string eqn:E; [apply String.eqb_eq in E|]; auto.
    + intros [(t' & [= <-] & [->| ->])|[? _]]; [reflexivity..|discriminate].
  - destruct (search_price (get_text d)) as [m|] eqn:E; cbn [from_option id].
    + destruct (price_match_head _ _ E) as (c & r & -> & Hc).
      cbn [String.eqb]. split.
      * intros [= -> _]. discriminate Hc.
      * intros [(t & ? & _)|[_ H]]; [discriminate|].
        apply search_price_None in H. congruence.
    + split; [|reflexivity]. intros _. right.
      split; [reflexivity|now apply search_price_None].
Qed.

Lemma price_sentinel_iff_witness :
  extract_product_data no_price_page !! "price" = Some (JStr "No Price Found").
Proof.
  apply price_sentinel_iff. right. split; reflexivity.
Defined.


(* ------------------------------------------------------------------ *)
(** * From the cleaning to the analysis *)







(** X11. The two stages do not use the same threshold: a record with a
    string title that passes the two title conditions, a string fetch time
    and a price from 99 up to, not including, 100 is retained by the
    filter, and the segmenter then puts its price in no tier and leaves
    every bucket as it was. *)
Theorem price_between_99_and_100 (item : gmap string json) (title ft : string)
    (p : Q) (yps : gmap string (gmap string (list Q))) :
  item !! "title" = Some (JStr title) ->
  ~ In title error_titles -> ~ In (lower title) promo_titles ->
  item !! "fetch_time" = Some (JStr ft) ->
  item !! "price" = Some (JNum p) -> (99 <= p)%Q -> (p < 100)%Q ->
  keep item = Ok true /\ tier_of p = None /\
  segment_record (JObj item) yps = Ok yps.
Proof.
  intros Ht H1 H2 Hft Hp Hlo Hhi.
  assert (tier_of p = None) as Htier.
  { destruct (tier_of p) as [t|] eqn:E; [|reflexivity].
    apply tier_of_in_tier in E as [(_ & H & _)|[(_ & H & _)|(_ & H)]]; lra. }
  split; [|split; [exact Htier|]].
  - unfold keep. rewrite Ht. cbn [json_in].
    destruct (str_in title error_titles) eqn:E1;
      [apply str_in_In in E1; contradiction|].
    destruct (str_in (lower title) promo_titles) eqn:E2;
      [apply str_in_In in E2; contradiction|].
    f_equal. apply price_ok_spec. right. exists (JNum p), p.
    split; [assumption|]. split; [reflexivity|]. split; [assumption|].
    intros y Hy Heq. cbn in Hy.
    repeat (destruct Hy as [<-|Hy]; [rewrite Heq in Hhi; discriminate Hhi|]).
    exact Hy.
  - unfold segment_record. rewrite Hft, Hp. cbn [from_option id].
    destruct (negb (truthy (JStr ft))); [reflexivity|].
    cbn [slice4 rbind as_number]. now rewrite Htier.
Qed.

Lemma price_between_99_and_100_witness :
  keep (<["price" := JNum (995 # 10)]> widget23) = Ok true /\
  segment_record (JObj (<["price" := JNum (995 # 10)]> widget23)) ∅ = Ok ∅.
Proof.
  destruct (price_between_99_and_100 (<["price" := JNum (995 # 10)]> widget23)
              "Widget" "2023-01-05T10:00:00" (995 # 10) ∅)
    as (Hk & _ & Hs); try reflexivity; try discriminate.
  - cbn. intuition discriminate.
  - cbn. intuition discriminate.
  - split; assumption.
Defined.


(* ------------------------------------------------------------------ *)
(** * Further properties of the segmenter *)

Lemma segment_record_entry (record : json)
    (yps yps' : gmap string (gmap string (list Q))) :
  segment_record record yps = Ok yps' ->
  yps' = match entry_of record with
         | Some (y, t, p) => append_price y t p yps
         | None => yps
         end.
Proof.
  unfold segment_record, entry_of.
  destruct record as [| | | | |r]; try discriminate.
  destruct (r !! "fetch_time") as [ft|]; cbn [from_option id];
    [|now intros [= <-]].
  destruct (truthy ft) eqn:Et; cbn [negb].
  2:{ intros [= <-]. destruct ft as [| | |s| |]; try reflexivity.
      cbn in Et. apply negb_false_iff in Et. now rewrite Et. }
  destruct ft as [| | |s|l|]; cbn [slice4 rbind]; try discriminate.
  - cbn in Et. apply negb_true_iff in Et. rewrite Et.
    destruct (r !! "price") as [v|]; cbn [from_option id]; [|now intros [= <-]].
    destruct v as [|[]|q| | |]; cbn [as_number]; try discriminate;
      try (now intros [= <-]);
      match goal with |- context [tier_of ?x] => destruct (tier_of x) end;
      now intros [= <-].
  - destruct (default JNull (r !! "price")) as [|[]|q| | |]; cbn [as_number];
      try discriminate; try (now intros [= <-]);
      match goal with |- context [tier_of ?x] => destruct (tier_of x) end;
      try discriminate; now intros [= <-].
Qed.

Lemma entry_of_tier (record : json) (y t : string) (p : Q) :
  entry_of record = Some (y, t, p) -> in_tier t p.
Proof.
  unfold entry_of. destruct record as [| | | | |r]; try discriminate.
  destruct (r !! "fetch_time") as [[| | |ft| |]|]; try discriminate.
  destruct (ft =? "")%string; [discriminate|].
  destruct (r !! "price") as [v|]; [|discriminate].
  destruct (as_number v) as [q|]; [|discriminate].
  destruct (tier_of q) as [t'|] eqn:E; [|discriminate].
  intros [= _ <- <-]. now apply tier_of_in_tier.
Qed.

Lemma segment_records_prices (records : list json)
    (yps0 yps : gmap string (gmap string (list Q))) (y t : string) :
  foldM segment_record records yps0 = Ok yps ->
  prices_at yps y t = (prices_at yps0 y t ++ prices_of records y t)%list.
Proof.
  revert yps0. induction records as [|r records IH]; intros yps0; cbn [foldM].
  - intros [= <-]. unfold prices_of. cbn. now rewrite app_nil_r.
  - destruct (segment_record r yps0) as [yps1|] eqn:E; cbn [rbind]; [|discriminate].
    intros H. rewrite (IH _ H). apply segment_record_entry in E. subst yps1.
    unfold prices_of. cbn [omap list_omap].
    destruct (entry_of r) as [[[y' t'] p]|]; [|reflexivity].
    destruct (bool_decide (y' = y /\ t' = t)) eqn:Ed.
    + apply bool_decide_eq_true in Ed as [-> ->].
      rewrite prices_at_append, <- app_assoc. reflexivity.
    + apply bool_decide_eq_false in Ed.
      rewrite prices_at_append_other; [reflexivity|].
      intros [-> ->]. now apply Ed.
Qed.

(** X12. When the segmenter raises nothing, the prices of a tier of a year
    are exactly the prices of the records that have a non-empty string
    fetch time starting with that year and a numeric price of that tier,
    in the order of the records: no price is lost, doubled or moved. *)
Theorem buckets_in_order (records : list json)
    (yps : gmap string (gmap string (list Q))) (y t : string) :
  segment_records records = Ok yps ->
  prices_at yps y t = prices_of records y t.
Proof.
  intros H. unfold segment_records in H.
  now rewrite (segment_records_prices _ _ _ y t H).
Qed.

Lemma buckets_in_order_witness :
  exists yps,
    segment_records [JObj (normalize parse_iso widget23); JNull] = Raise AttributeError /\
    segment_records [JObj (normalize parse_iso widget23);
                     JObj (normalize parse_iso gadget22);
                     JObj (<["price" := JNum 250]> widget23)] = Ok yps /\
    prices_at yps "2023" "low" = [150%Q; 250%Q].
Proof.
  destruct (segment_records [JObj (normalize parse_iso widget23);
                             JObj (normalize parse_iso gadget22);
                             JObj (<["price" := JNum 250]> widget23)])
    as [yps|] eqn:E; [|vm_compute in E; discriminate].
  exists yps. split; [reflexivity|]. split; [reflexivity|].
  rewrite (buckets_in_order _ _ "2023" "low" E). reflexivity.
Defined.

Lemma prices_of_elem (records : list json) (y t : string) (p : Q) :
  In p (prices_of records y t) ->
  exists record, In record records /\ entry_of record = Some (y, t, p).
Proof.
  unfold prices_of. intros H. apply list_elem_of_In, list_elem_of_omap in H
    as (record & Hr & He).
  exists record. split; [now apply list_elem_of_In|].
  destruct (entry_of record) as [[[y' t'] p']|]; [|discriminate].
  destruct (bool_decide (y' = y /\ t' = t)) eqn:Ed; [|discriminate].
  apply bool_decide_eq_true in Ed as [-> ->]. now injection He as ->.
Qed.

Lemma append_price_priced (y t : string) (p : Q)
    (yps : gmap string (gmap string (list Q))) :
  In t segment_names -> every_year_priced yps ->
  every_year_priced (append_price y t p yps).
Proof.
  intros Ht H y' segments Hy'.
  destruct (decide (y' = y)) as [->|Hne].
  - exists t. split; [assumption|]. rewrite prices_at_append.
    now destruct (prices_at yps y t).
  - unfold append_price in Hy'. rewrite lookup_insert_ne in Hy' by done.
    destruct (H y' segments Hy') as (t' & Ht' & Hp).
    exists t'. split; [assumption|].
    rewrite prices_at_append_other; [assumption|]. intros [? _]. contradiction.
Qed.

Lemma tier_of_name (p : Q) (t : string) : tier_of p = Some t -> In t segment_names.
Proof.
  unfold tier_of, segment_names.
  destruct (_ && _); [intros [= <-]; cbn; auto|].
  destruct (_ && _); [intros [= <-]; cbn; auto|].
  destruct (Qltb _ _); [intros [= <-]; cbn; auto|discriminate].
Qed.

Lemma entry_of_name (record : json) (y t : string) (p : Q) :
  entry_of record = Some (y, t, p) -> In t segment_names.
Proof.
  unfold entry_of. destruct record as [| | | | |r]; try discriminate.
  destruct (r !! "fetch_time") as [[| | |ft| |]|]; try discriminate.
  destruct (ft =? "")%string; [discriminate|].
  destruct (r !! "price") as [v|]; [|discriminate].
  destruct (as_number v) as [q|]; [|discriminate].
  destruct (tier_of q) as [t'|] eqn:E; [|discriminate].
  intros [= _ <- _]. now apply tier_of_name in E.
Qed.

Lemma segment_records_priced (records : list json)
    (yps : gmap string (gmap string (list Q))) :
  segment_records records = Ok yps -> every_year_priced yps.
Proof.
  apply (foldM_invariant every_year_priced).
  - intros r b b' Hb E. apply segment_record_entry in E. subst b'.
    destruct (entry_of r) as [[[y t] p]|] eqn:Ee; [|assumption].
    apply append_price_priced; [|assumption]. now apply entry_of_name in Ee.
  - intros y segments H. now rewrite lookup_empty in H.
Qed.

(** X13. The buckets the segmenter builds keep two invariants: every price
    in a tier lies in the range of that tier, and a year has a bucket only
    if one of its three tiers holds a price (a year whose prices are all
    below 100 has no bucket, and so no row in the report). *)
Theorem buckets_invariant (records : list json)
    (yps : gmap string (gmap string (list Q))) :
  segment_records records = Ok yps ->
  (forall y t p, In p (prices_at yps y t) -> in_tier t p) /\
  (forall y, is_Some (yps !! y) ->
     exists t, In t ["low"; "mid"; "high"] /\ prices_at yps y t <> []).
Proof.
  intros H. split.
  - intros y t p Hp. unfold segment_records in H.
    rewrite (segment_records_prices _ _ _ y t H) in Hp. cbn in Hp.
    apply prices_of_elem in Hp as (record & _ & He).
    now apply entry_of_tier in He.
  - intros y [segments Hy]. exact (segment_records_priced _ _ H y segments Hy).
Qed.

Lemma buckets_invariant_witness :
  exists yps,
    segment_records [JObj (normalize parse_iso widget23);
                     JObj (<["price" := JNum 50]> gadget22)] = Ok yps /\
    yps !! "2022" = None /\
    forall p, In p (prices_at yps "2023" "low") -> in_tier "low" p.
Proof.
  destruct (segment_records [JObj (normalize parse_iso widget23);
                             JObj (<["price" := JNum 50]> gadget22)])
    as [yps|] eqn:E; [|vm_compute in E; discriminate].
  exists yps. split; [reflexivity|].
  destruct (buckets_invariant _ _ E) as [Hrange _].
  split; [|intros p; apply Hrange].
  vm_compute in E. injection E as <-. reflexivity.
Defined.


(* ------------------------------------------------------------------ *)
(** * Further properties of the statistics *)

Local Open Scope Q_scope.

Lemma round_half_even_floor (x : Q) :
  (Qfloor x <= round_half_even x <= Qfloor x + 1)%Z.
Proof.
  unfold round_half_even.
  destruct (2 * (x - inject_Z (Qfloor x)) ?= 1); [destruct (Z.even _)|..]; lia.
Qed.

Ltac compare_to_order H :=
  match type of H with
  | (_ ?= _) = Eq => rewrite <- Qeq_alt in H
  | (_ ?= _) = Lt => rewrite <- Qlt_alt in H
  | (_ ?= _) = Gt => rewrite <- Qgt_alt in H
  end.

Lemma round_half_even_mono (x y : Q) :
  x <= y -> (round_half_even x <= round_half_even y)%Z.
Proof.
  intros Hxy.
  pose proof (Qfloor_resp_le _ _ Hxy) as Hf.
  destruct (Z.eq_dec (Qfloor x) (Qfloor y)) as [E|E].
  - unfold round_half_even. rewrite E.
    destruct (2 * (x - inject_Z (Qfloor y)) ?= 1) eqn:Ex;
      destruct (2 * (y - inject_Z (Qfloor y)) ?= 1) eqn:Ey;
      try (destruct (Z.even (Qfloor y))); try lia; exfalso;
      compare_to_order Ex; compare_to_order Ey; lra.
  - pose proof (round_half_even_floor x). pose proof (round_half_even_floor y). lia.
Qed.

Lemma round2_mono (x y : Q) : x <= y -> round2 x <= round2 y.
Proof.
  intros H. unfold round2. rewrite !Qred_correct.
  assert (round_half_even (x * 100) <= round_half_even (y * 100))%Z as Hn
    by (apply round_half_even_mono; lra).
  unfold Qle. cbn. lia.
Qed.

Lemma Qsum_bounds (l : list Q) (lo hi : Q) :
  (forall x, In x l -> lo <= x /\ x <= hi) ->
  lo * inject_Z (Z.of_nat (length l)) <= Qsum l /\
  Qsum l <= hi * inject_Z (Z.of_nat (length l)).
Proof.
  induction l as [|a l IH]; intros H.
  - cbn [length Qsum foldr]. change (inject_Z (Z.of_nat 0)) with 0. split; lra.
  - destruct IH as [IH1 IH2]; [intros x Hx; apply H; now right|].
    destruct (H a (or_introl eq_refl)) as [Ha1 Ha2].
    cbn [length Qsum foldr]. rewrite Nat2Z.inj_succ.
    unfold Z.succ. rewrite inject_Z_plus. change (inject_Z 1) with 1.
    unfold Qsum in *. split; lra.
Qed.

Lemma mean_bounds (l : list Q) (lo hi : Q) :
  l <> [] -> (forall x, In x l -> lo <= x /\ x <= hi) ->
  lo <= mean l /\ mean l <= hi.
Proof.
  intros Hne H. destruct (Qsum_bounds l lo hi H) as [H1 H2].
  assert (0 < inject_Z (Z.of_nat (length l))) as Hn.
  { destruct l; [contradiction|]. unfold Qlt, inject_Z. cbn. lia. }
  unfold mean. rewrite Qred_correct. split.
  - apply Qle_shift_div_l; assumption.
  - apply Qle_shift_div_r; assumption.
Qed.



Local Close Scope Q_scope.


(* ------------------------------------------------------------------ *)
(** * Further properties of the analysis *)

Lemma avg_at_summarize (yps : gmap string (gmap string (list Q))) (y t : string) :
  avg_at (summarize yps) y t = average (calculate_statistics (prices_at yps y t)).
Proof.
  unfold avg_at, summarize, prices_at. rewrite lookup_fmap.
  destruct (yps !! y) as [segments|]; cbn; [|reflexivity].
  rewrite lookup_fmap. destruct (segments !! t); reflexivity.
Qed.

Lemma average_None (l : list Q) :
  average (calculate_statistics l) = None <-> l = [].
Proof.
  destruct l; cbn; split; (reflexivity || discriminate).
Qed.

Local Open Scope Q_scope.

Lemma in_tier_at_least_100 (t : string) (p : Q) : in_tier t p -> 100 <= p.
Proof.
  intros [(_ & H & _)|[(_ & H & _)|(_ & H)]]; lra.
Qed.

Lemma average_at_least_100 (l : list Q) (a : Q) :
  (forall p, In p l -> 100 <= p) ->
  average (calculate_statistics l) = Some a -> 100 <= a.
Proof.
  intros H. destruct l as [|x l]; [discriminate|].
  cbn [calculate_statistics average]. intros [= <-].
  assert (x :: l <> []) as Hne by discriminate.
  destruct (list_max_spec (x :: l) Hne) as [_ Hmax].
  destruct (mean_bounds (x :: l) 100 (list_max (x :: l)) Hne) as [Hlo _];
    [intros y Hy; split; auto|].
  rewrite <- (round2_two_decimals 100 10000) by reflexivity.
  now apply round2_mono.
Qed.

(** X15. In the summary the analysis builds from the records, every
    average that is there is at least 100, so no average is zero and the
    guard on a zero previous average never decides: for neighbouring years
    the rate of a tier is null exactly when that tier is empty in one of
    the two years. *)
Theorem rate_null_iff_tier_empty (records : list json)
    (yps : gmap string (gmap string (list Q))) :
  segment_records records = Ok yps ->
  (forall y t a, avg_at (summarize yps) y t = Some a -> 100 <= a) /\
  exists infl,
    inflation_rates (summarize yps) = Ok infl /\
    forall prev curr t,
      (prev, curr) ∈ consecutive (sorted_keys (summarize yps)) ->
      t ∈ ["low"; "mid"; "high"] ->
      (inflation_summary infl !! curr ≫= (fun rates => rates !! t) = Some None <->
       prices_at yps prev t = [] \/ prices_at yps curr t = []).
Proof.
  intros H.
  assert (forall y t a, avg_at (summarize yps) y t = Some a -> 100 <= a) as Havg.
  { intros y t a. rewrite avg_at_summarize. apply average_at_least_100.
    intros p Hp. apply (in_tier_at_least_100 t).
    unfold segment_records in H.
    rewrite (segment_records_prices _ _ _ y t H) in Hp. cbn in Hp.
    apply prices_of_elem in Hp as (record & _ & He).
    now apply entry_of_tier in He. }
  split; [exact Havg|].
  assert (every_segment (summarize yps)) as Hseg
    by (apply summarize_complete; now apply segment_records_complete in H).
  eexists. split; [apply (inflation_rates_eq _ Hseg)|].
  intros prev curr t Hin Ht. cbn [inflation_summary].
  rewrite (recorded_rate _ prev curr t Hin Ht).
  rewrite <- !average_None, <- !avg_at_summarize. split.
  - intros [= E]. apply rate_of_None in E as [E|[E|(p & Hp & Hz)]]; auto.
    apply Havg in Hp. lra.
  - intros E. f_equal. apply rate_of_None. tauto.
Qed.

Local Close Scope Q_scope.

Lemma rate_null_iff_tier_empty_witness :
  exists yps a,
    segment_records [JObj (normalize parse_iso widget23);
                     JObj (normalize parse_iso gadget22)] = Ok yps /\
    avg_at (summarize yps) "2023" "low" = Some a /\ (100 <= a)%Q.
Proof.
  destruct (segment_records [JObj (normalize parse_iso widget23);
                             JObj (normalize parse_iso gadget22)])
    as [yps|] eqn:E; [|vm_compute in E; discriminate].
  destruct (rate_null_iff_tier_empty _ _ E) as [Havg _].
  destruct (avg_at (summarize yps) "2023" "low") as [a|] eqn:Ea.
  - exists yps, a. split; [reflexivity|]. split; [exact Ea|].
    now apply (Havg "2023" "low").
  - exfalso. vm_compute in E. injection E as <-. vm_compute in Ea. discriminate.
Defined.


Lemma sorted_items_fst {A} (d : gmap string A) :
  (sorted_items d).*1 = sorted_keys d.
Proof.
  unfold sorted_items.
  assert (forall k, k ∈ sorted_keys d -> is_Some (d !! k)) as H
    by (intros k; apply sorted_keys_elem).
  induction (sorted_keys d) as [|k l IH]; [reflexivity|].
  cbn [omap list_omap]. destruct (H k) as [v ->]; [left|].
  cbn. f_equal. apply IH. intros k' Hk'. apply H. now right.
Qed.

Lemma sorted_items_elem {A} (d : gmap string A) (k : string) (v : A) :
  (k, v) ∈ sorted_items d <-> d !! k = Some v.
Proof.
  unfold sorted_items. rewrite list_elem_of_omap. split.
  - intros (k' & _ & H). destruct (d !! k') as [v'|] eqn:E; [|discriminate].
    cbn in H. now injection H as <- <-.
  - intros H. exists k. split; [apply sorted_keys_elem; eauto|]. now rewrite H.
Qed.

Lemma rates_after_is_Some (summary : gmap string (gmap string stats))
    (pairs : list (string * string)) (y : string) :
  is_Some (rates_after summary pairs !! y) <-> y ∈ pairs.*2.
Proof.
  unfold rates_after.
  assert (forall s : gmap string (gmap string (option Q)),
            is_Some (foldl (fun s pc => <[pc.2 := year_rates summary pc.1 pc.2]> s)
                           s pairs !! y)
            <-> is_Some (s !! y) \/ y ∈ pairs.*2) as H.
  { induction pairs as [|[p c] pairs IH]; intros s; cbn [foldl].
    - cbn. rewrite elem_of_nil. tauto.
    - rewrite IH. cbn. rewrite elem_of_cons.
      destruct (decide (y = c)) as [->|Hne].
      + rewrite lookup_insert_eq. split; [intros _|]; eauto.
      + rewrite lookup_insert_ne by done. tauto. }
  rewrite H, lookup_empty. split; [intros [[? [=]]|]|]; auto.
Qed.

Lemma year_rates_dom (summary : gmap string (gmap string stats))
    (p c s : string) :
  is_Some (year_rates summary p c !! s) <-> s ∈ ["low"; "mid"; "high"].
Proof.
  unfold year_rates. rewrite !lookup_insert_is_Some, lookup_empty.
  rewrite !elem_of_cons, elem_of_nil. split.
  - intros [->|[_ [->|[_ [->|[_ [? [=]]]]]]]]; auto.
  - intros [->|[->|[->|[]]]]; [right; split; [done|]; right; split; [done|]; left
                               |right; split; [done|]; left|left]; reflexivity.
Qed.

Lemma StronglySorted_tail {A} (R : relation A) (l : list A) :
  StronglySorted R l -> StronglySorted R (tail l).
Proof.
  destruct 1; [constructor|assumption].
Qed.

(** X16. The report of the analysis lists the years in ascending order
    and each one once; its table of rates has a row for every year but the
    earliest, in the same order, and each row holds exactly the three
    segments low, mid and high. *)
Theorem report_years (records : list json) (out : output) :
  analyze_data records = Ok out ->
  StronglySorted str_le (out_yearly_segment_summary out).*1 /\
  NoDup (out_yearly_segment_summary out).*1 /\
  (out_inflation_summary out).*1 = tail (out_yearly_segment_summary out).*1 /\
  (forall y rates, (y, rates) ∈ out_inflation_summary out ->
     forall s, is_Some (rates !! s) <-> s ∈ ["low"; "mid"; "high"]).
Proof.
  unfold analyze_data.
  destruct (segment_records records) as [yps|] eqn:E; cbn [rbind]; [|discriminate].
  assert (every_segment (summarize yps)) as Hseg
    by (apply summarize_complete; now apply segment_records_complete in E).
  rewrite (inflation_rates_eq _ Hseg). cbn [rbind]. intros [= <-].
  cbn [out_yearly_segment_summary out_inflation_summary inflation_summary].
  rewrite !sorted_items_fst.
  set (summary := summarize yps).
  split; [apply sorted_keys_sorted|]. split; [apply sorted_keys_NoDup|].
  split.
  - apply (Sorted_unique str_le).
    + apply StronglySorted_Sorted, sorted_keys_sorted.
    + apply StronglySorted_Sorted, StronglySorted_tail, sorted_keys_sorted.
    + apply NoDup_Permutation.
      * apply sorted_keys_NoDup.
      * pose proof (sorted_keys_NoDup summary) as Hnd.
        destruct (sorted_keys summary); [constructor|].
        now apply NoDup_cons in Hnd as [_ Hnd].
      * intros y. rewrite sorted_keys_elem, rates_after_is_Some.
        now rewrite consecutive_snd.
  - intros y rates Hin s. apply sorted_items_elem in Hin.
    assert (y ∈ (consecutive (sorted_keys summary)).*2) as Hy
      by (apply (rates_after_is_Some summary); eauto).
    apply list_elem_of_fmap in Hy as ([p c] & -> & Hpc). cbn in Hin.
    rewrite (rates_after_lookup summary _ p c) in Hin; [| |assumption].
    + injection Hin as <-. apply year_rates_dom.
    + rewrite consecutive_snd.
      pose proof (sorted_keys_NoDup summary) as Hnd.
      destruct (sorted_keys summary); [constructor|].
      now apply NoDup_cons in Hnd as [_ Hnd].
Qed.

Lemma report_years_witness :
  exists out,
    analyze_data [JObj (normalize parse_iso widget23);
                  JObj (normalize parse_iso gadget22)] = Ok out /\
    (out_inflation_summary out).*1 = tail (out_yearly_segment_summary out).*1.
Proof.
  destruct (analyze_data [JObj (normalize parse_iso widget23);
                          JObj (normalize parse_iso gadget22)])
    as [out|] eqn:E; [|vm_compute in E; discriminate].
  exists out. split; [reflexivity|].
  now destruct (report_years _ _ E) as (_ & _ & H & _).
Defined.

Local Open Scope Q_scope.




Local Close Scope Q_scope.


Local Open Scope Q_scope.








Local Close Scope Q_scope.


(* ------------------------------------------------------------------ *)
(** * Normalizing twice *)

Lemma no_char_remove_same (c : ascii) (s : string) :
  no_char (Ascii.eqb c) (remove_char c s) = true.
Proof.
  induction s as [|d s IH]; [reflexivity|]. cbn [remove_char].
  destruct (Ascii.eqb c d) eqn:E; [exact IH|]. cbn [no_char]. now rewrite E.
Qed.

Lemma no_char_remove (p : ascii -> bool) (c : ascii) (s : string) :
  no_char p s = true -> no_char p (remove_char c s) = true.
Proof.
  induction s as [|d s IH]; [reflexivity|]. cbn [remove_char no_char].
  intros H. apply andb_true_iff in H as [Hd Hs].
  destruct (Ascii.eqb c d); [auto|]. cbn [no_char]. now rewrite Hd, IH.
Qed.

Lemma no_char_lstrip (p : ascii -> bool) (s : string) :
  no_char p s = true -> no_char p (lstrip s) = true.
Proof.
  induction s as [|d s IH]; [reflexivity|]. cbn [lstrip].
  destruct (is_space d); [|auto]. cbn [no_char]. intros H.
  apply andb_true_iff in H as [_ Hs]. auto.
Qed.

Lemma no_char_rstrip (p : ascii -> bool) (s : string) :
  no_char p s = true -> no_char p (rstrip s) = true.
Proof.
  induction s as [|d s IH]; [reflexivity|]. cbn [rstrip no_char].
  intros H. apply andb_true_iff in H as [Hd Hs]. specialize (IH Hs).
  destruct (rstrip s) as [|e r].
  - destruct (is_space d); [reflexivity|]. cbn [no_char]. now rewrite Hd.
  - cbn [no_char] in *. now rewrite Hd, IH.
Qed.

Lemma rstrip_idempotent (s : string) : rstrip (rstrip s) = rstrip s.
Proof.
  induction s as [|c s IH]; [reflexivity|]. cbn [rstrip].
  destruct (rstrip s) as [|e r] eqn:E.
  - destruct (is_space c) eqn:Ec; [reflexivity|]. cbn [rstrip]. now rewrite Ec.
  - cbn [rstrip]. cbn [rstrip] in IH. rewrite IH. reflexivity.
Qed.

Lemma rstrip_head (s : string) :
  match s with String c _ => is_space c = false | EmptyString => True end ->
  match rstrip s with String c _ => is_space c = false | EmptyString => True end.
Proof.
  destruct s as [|c s]; [auto|]. cbn [rstrip]. intros Hc.
  destruct (rstrip s); [now rewrite Hc|assumption].
Qed.

Lemma lstrip_head (s : string) :
  match lstrip s with String c _ => is_space c = false | EmptyString => True end.
Proof.
  induction s as [|c s IH]; [exact I|]. cbn [lstrip].
  destruct (is_space c) eqn:E; [exact IH|exact E].
Qed.

Lemma lstrip_clean_head (s : string) :
  match s with String c _ => is_space c = false | EmptyString => True end ->
  lstrip s = s.
Proof.
  destruct s as [|c s]; [reflexivity|]. cbn [lstrip]. now intros ->.
Qed.

Lemma strip_idempotent (s : string) : strip (strip s) = strip s.
Proof.
  unfold strip.
  rewrite (lstrip_clean_head (rstrip (lstrip s)))
    by apply rstrip_head, lstrip_head.
  apply rstrip_idempotent.
Qed.

Lemma normalize_price_eq (item : gmap string json) (raw : string) :
  item !! "price" = Some (JStr raw) ->
  normalize_price item
  = if isdigit (strip (remove_char "," (remove_char "$" raw)))
       || contains_char "." (strip (remove_char "," (remove_char "$" raw)))
    then match py_float (strip (remove_char "," (remove_char "$" raw))) with
         | Some x =>
             <["price" := JNum x]>
               (<["price" := JStr (strip (remove_char "," (remove_char "$" raw)))]> item)
         | None =>
             <["price" := JNull]>
               (<["price" := JStr (strip (remove_char "," (remove_char "$" raw)))]> item)
         end
    else <["price" := JStr (strip (remove_char "," (remove_char "$" raw)))]> item.
Proof.
  intros H. unfold normalize_price. now rewrite H.
Qed.

Lemma normalize_price_not_string (item : gmap string json) :
  (forall raw, item !! "price" <> Some (JStr raw)) -> normalize_price item = item.
Proof.
  intros H. unfold normalize_price.
  destruct (item !! "price") as [[| | |raw| |]|] eqn:E; try reflexivity.
  now destruct (H raw).
Qed.

(** X19. Normalizing the price twice is normalizing it once: what the
    normalizer leaves (a number, null, or a trimmed string without dollar
    signs and commas that the guard does not let through) it leaves again. *)
Theorem normalize_price_idempotent (item : gmap string json) :
  normalize_price (normalize_price item) = normalize_price item.
Proof.
  destruct (item !! "price") as [v|] eqn:E.
  2:{ rewrite (normalize_price_not_string item) by (intros raw; congruence).
      apply normalize_price_not_string. intros raw. congruence. }
  destruct v as [| | |raw| |];
    try (rewrite (normalize_price_not_string item) by (intros r; congruence);
         apply normalize_price_not_string; intros r; congruence).
  rewrite (normalize_price_eq item raw E).
  set (s := strip (remove_char "," (remove_char "$" raw))).
  assert (strip (remove_char "," (remove_char "$" s)) = s) as Hs.
  { assert (no_char (Ascii.eqb "$") s = true) as H1.
    { unfold s, strip. apply no_char_rstrip, no_char_lstrip, no_char_remove,
        no_char_remove_same. }
    assert (no_char (Ascii.eqb ",") s = true) as H2.
    { unfold s, strip. apply no_char_rstrip, no_char_lstrip, no_char_remove_same. }
    rewrite (remove_char_absent "$" s H1), (remove_char_absent "," s H2).
    apply strip_idempotent. }
  destruct (isdigit s || contains_char "." s) eqn:Eg.
  - destruct (py_float s); apply normalize_price_not_string; intros r;
      rewrite lookup_insert_eq; discriminate.
  - rewrite (normalize_price_eq _ s) by apply lookup_insert_eq.
    rewrite Hs, Eg. apply insert_insert_eq.
Qed.
